(** * String casing utilities: [toCamelCase], [toDotCase], [toKebabCase]

    A shallow embedding of [src/refined_prompt.js], [src/chain_prompt.js]
    and the second [toCamelCase] of [few_shot_prompt.js], with the
    properties the specification states about them.

    A JavaScript string is a sequence of 16-bit code units; it is modelled
    as a list of numbers.  The regular expressions of the source only use
    character classes, so each of them is modelled by the boolean predicate
    of its class and by the string operation ([test], [replace] with the
    global flag, [split]) it is used with. *)

From Stdlib Require Import Ascii String DecimalString.
From Stdlib Require Import List Bool NArith ZArith Lia.
From Stdlib Require DecimalPos.
Import ListNotations.

Local Open Scope N_scope.
Local Open Scope list_scope.

(** ** Strings *)

Definition codeunit : Type := N.
Definition jsstring : Type := list codeunit.

(** A string literal of the source, as code units. *)
Definition js (s : String.string) : jsstring :=
  map Ascii.N_of_ascii (String.list_ascii_of_string s).

Arguments js s%_string.

Definition HYPHEN : codeunit := 45.
Definition DOT : codeunit := 46.
Definition UNDERSCORE : codeunit := 95.

(** ** Character classes of the regular expressions *)

Definition between (lo hi c : codeunit) : bool := (lo <=? c) && (c <=? hi).

(** [[A-Z]], [[a-z]], [[0-9]] *)
Definition isUpper (c : codeunit) : bool := between 65 90 c.
Definition isLower (c : codeunit) : bool := between 97 122 c.
Definition isDigit (c : codeunit) : bool := between 48 57 c.

(** [[A-Za-z]] and [[A-Za-z0-9]] *)
Definition isLetter (c : codeunit) : bool := isUpper c || isLower c.
Definition isAlnum (c : codeunit) : bool := isLetter c || isDigit c.

(** [[a-z0-9]] *)
Definition isLowerOrDigit (c : codeunit) : bool := isLower c || isDigit c.

(** [\s]: the WhiteSpace and LineTerminator code points of ECMAScript;
    [String.prototype.trim] strips exactly the same set. *)
Definition isSpace (c : codeunit) : bool :=
  between 9 13 c || (c =? 32) || (c =? 160) || (c =? 5760)
  || between 8192 8202 c || (c =? 8232) || (c =? 8233) || (c =? 8239)
  || (c =? 8287) || (c =? 12288) || (c =? 65279).

(** [[\s_-]]: the separators of [toCamelCase]. *)
Definition isSeparator (c : codeunit) : bool :=
  isSpace c || (c =? UNDERSCORE) || (c =? HYPHEN).

Definition isHyphen (c : codeunit) : bool := c =? HYPHEN.
Definition isDot (c : codeunit) : bool := c =? DOT.

(** [[^A-Za-z0-9.]] and [[^A-Za-z0-9-]] *)
Definition notAlnumDot (c : codeunit) : bool := negb (isAlnum c || isDot c).
Definition notAlnumHyphen (c : codeunit) : bool := negb (isAlnum c || isHyphen c).

(** [[^A-Za-z0-9]] *)
Definition notAlnum (c : codeunit) : bool := negb (isAlnum c).

(** ** String methods *)

(** [re.test(s)] for a regular expression that is one character class. *)
Definition test (cls : codeunit -> bool) (s : jsstring) : bool := existsb cls s.

Fixpoint dropWhile (p : codeunit -> bool) (s : jsstring) : jsstring :=
  match s with
  | [] => []
  | c :: r => if p c then dropWhile p r else s
  end.

Definition dropWhileEnd (p : codeunit -> bool) (s : jsstring) : jsstring :=
  rev (dropWhile p (rev s)).

(** [s.trim()] *)
Definition trim (s : jsstring) : jsstring := dropWhileEnd isSpace (dropWhile isSpace s).

(** [s.replace(/[cls]+/g, by)]: every maximal run of characters of the class
    is replaced by [by].  [inRun] tells that the previous character was
    part of a run, whose replacement is already written. *)
Fixpoint replaceRunsFrom (cls : codeunit -> bool) (by_ : jsstring) (inRun : bool)
    (s : jsstring) : jsstring :=
  match s with
  | [] => []
  | c :: r =>
      if cls c then
        if inRun then replaceRunsFrom cls by_ true r
        else by_ ++ replaceRunsFrom cls by_ true r
      else c :: replaceRunsFrom cls by_ false r
  end.

Definition replaceRuns (cls : codeunit -> bool) (by_ : jsstring) (s : jsstring) : jsstring :=
  replaceRunsFrom cls by_ false s.

(** [s.replace(/([a-z0-9])([A-Z])/g, '$1.$2')]: the scan goes left to right;
    a match consumes both of its characters and the scan resumes after
    them. *)
Fixpoint replaceCamelBoundaries (s : jsstring) : jsstring :=
  match s with
  | a :: ((b :: r) as t) =>
      if isLowerOrDigit a && isUpper b
      then a :: DOT :: b :: replaceCamelBoundaries r
      else a :: replaceCamelBoundaries t
  | _ => s
  end.

(** [s.replace(/^\.+|\.+$/g, '')]: the first alternative matches the dots the
    string starts with, the second one the dots it ends with. *)
Definition stripDots (s : jsstring) : jsstring :=
  dropWhileEnd isDot (dropWhile isDot s).

(** [s.split(/[cls]+/)]: the pieces between the maximal runs of characters of
    the class; a run at the start or at the end of the string gives an empty
    first or last piece, and the empty string gives one empty piece. *)
Fixpoint splitRunsFrom (cls : codeunit -> bool) (piece : jsstring) (inRun : bool)
    (s : jsstring) : list jsstring :=
  match s with
  | [] => [piece]
  | c :: r =>
      if cls c then
        if inRun then splitRunsFrom cls piece true r
        else piece :: splitRunsFrom cls [] true r
      else splitRunsFrom cls (piece ++ [c]) false r
  end.

Definition splitRuns (cls : codeunit -> bool) (s : jsstring) : list jsstring :=
  splitRunsFrom cls [] false s.

(** [s.split('.')] and the like: the pieces between the occurrences of one
    character. *)
Fixpoint splitCharFrom (d : codeunit) (piece : jsstring) (s : jsstring) : list jsstring :=
  match s with
  | [] => [piece]
  | c :: r =>
      if c =? d then piece :: splitCharFrom d [] r
      else splitCharFrom d (piece ++ [c]) r
  end.

Definition splitChar (d : codeunit) (s : jsstring) : list jsstring :=
  splitCharFrom d [] s.

(** [a.filter(Boolean)] on an array of strings: the empty string is the only
    falsy one. *)
Definition nonEmpty (s : jsstring) : bool :=
  match s with [] => false | _ :: _ => true end.

Definition filterBoolean (a : list jsstring) : list jsstring := filter nonEmpty a.

(** [a.join(d)] *)
Fixpoint join (d : jsstring) (a : list jsstring) : jsstring :=
  match a with
  | [] => []
  | [x] => x
  | x :: r => x ++ d ++ join d r
  end.

(** [a === b] on strings *)
Fixpoint eqString (a b : jsstring) : bool :=
  match a, b with
  | [], [] => true
  | x :: a', y :: b' => (x =? y) && eqString a' b'
  | _, _ => false
  end.

(** [s.charAt(0)] and [s.slice(1)] *)
Definition charAt0 (s : jsstring) : jsstring := firstn 1 s.
Definition slice1 (s : jsstring) : jsstring := skipn 1 s.

(** ** Case conversion

    [toLowerCase] and [toUpperCase] follow the Unicode case mappings.  On a
    string of ASCII characters they map the letters [A-Z] and [a-z] onto
    each other and leave every other character alone; what they do to a
    string with a character outside ASCII is left open: it is a parameter of
    the development, and every theorem holds whatever it is. *)

Definition isASCII (c : codeunit) : bool := c <? 128.

Definition asciiLower (c : codeunit) : codeunit := if isUpper c then c + 32 else c.
Definition asciiUpper (c : codeunit) : codeunit := if isLower c then c - 32 else c.

Class UnicodeCasing : Type := {
  unicodeLower : jsstring -> jsstring;
  unicodeUpper : jsstring -> jsstring
}.

Definition toLowerCase `{UC : UnicodeCasing} (s : jsstring) : jsstring :=
  if forallb isASCII s then map asciiLower s else unicodeLower s.

Definition toUpperCase `{UC : UnicodeCasing} (s : jsstring) : jsstring :=
  if forallb isASCII s then map asciiUpper s else unicodeUpper s.

(** The case mappings that change nothing outside ASCII, to run the functions
    on ASCII inputs. *)
Definition asciiCasing : UnicodeCasing :=
  {| unicodeLower := map asciiLower; unicodeUpper := map asciiUpper |}.

(** ** Values and results *)

(** A Number.  [String(n)] writes an integer below 10^21 in absolute value
    with its decimal digits; the text of any other finite number (a
    fraction, an exponent form) is carried with it. *)
Inductive jsnumber : Type :=
| NumInt (z : Z)
| NumText (txt : jsstring)
| NumNaN
| NumInfinity (negative : bool).

Inductive jsvalue : Type :=
| JUndefined
| JNull
| JBoolean (b : bool)
| JNumber (n : jsnumber)
| JString (s : jsstring)
| JBigInt (z : Z)
| JSymbol
| JObject
| JFunction.

Inductive jstype : Type :=
| TUndefined | TObject | TBoolean | TNumber | TString | TBigInt | TSymbol
| TFunction.

Definition typeof (v : jsvalue) : jstype :=
  match v with
  | JUndefined => TUndefined
  | JNull => TObject
  | JBoolean _ => TBoolean
  | JNumber _ => TNumber
  | JString _ => TString
  | JBigInt _ => TBigInt
  | JSymbol => TSymbol
  | JObject => TObject
  | JFunction => TFunction
  end.

(** [String(n)] for a Number. *)
Definition stringOfNumber (n : jsnumber) : jsstring :=
  match n with
  | NumInt z => js (DecimalString.NilEmpty.string_of_int (Z.to_int z))
  | NumText txt => txt
  | NumNaN => js "NaN"
  | NumInfinity false => js "Infinity"
  | NumInfinity true => js "-Infinity"
  end.

Inductive jserror : Type :=
| TypeError (message : String.string)
| Error (message : String.string).

Arguments TypeError message%_string.
Arguments Error message%_string.

Inductive result (A : Type) : Type :=
| Return (a : A)
| Throw (e : jserror).

Arguments Return {A} a.
Arguments Throw {A} e.

Section Casing.

Context `{UC : UnicodeCasing}.

(** ** [toCamelCase] of [src/refined_prompt.js] *)

Definition capitalize (seg : jsstring) : jsstring :=
  let lower := toLowerCase seg in
  toUpperCase (charAt0 lower) ++ slice1 lower.

Definition camelOfString (input : jsstring) : jsstring :=
  let str := trim input in
  if (length str =? 0)%nat then []
  else
    let hasSeparator := test isSeparator str in
    if negb hasSeparator then
      if test isLetter str && eqString str (toUpperCase str)
      then toLowerCase str
      else str
    else
      let segments := filterBoolean (splitRuns isSeparator str) in
      match segments with
      | [] => []
      | seg0 :: others =>
          let first := toLowerCase seg0 in
          let rest := map capitalize others in
          join [] (first :: rest)
      end.

Definition toCamelCase (input : jsvalue) : result jsstring :=
  let input :=
    match input with
    | JNumber n => JString (stringOfNumber n)
    | _ => input
    end in
  match input with
  | JString s => Return (camelOfString s)
  | _ => Throw (TypeError "toCamelCase expects a string or number")
  end.

(** ** [toDotCase] of [src/refined_prompt.js] *)

(** Lines 124 to 131: what is done to the string once the camelCase
    boundaries are broken. *)
Definition dotNormalize (s : jsstring) : jsstring :=
  let s := replaceRuns notAlnumDot [DOT] s in
  let s := stripDots (replaceRuns isDot [DOT] s) in
  if (length s =? 0)%nat then []
  else join [DOT] (map toLowerCase (filterBoolean (splitChar DOT s))).

Definition dotOfString (input : jsstring) : jsstring :=
  let str := trim input in
  if (length str =? 0)%nat then []
  else
    let s := replaceCamelBoundaries str in
    dotNormalize s.

Definition toDotCase (input : jsvalue) : result jsstring :=
  let input :=
    match input with
    | JNumber n => JString (stringOfNumber n)
    | _ => input
    end in
  match input with
  | JString s => Return (dotOfString s)
  | _ => Throw (TypeError "toDotCase expects a string or number")
  end.

(** ** [toKebabCase] of [src/chain_prompt.js] *)

(** Steps 4 to 7 of the function: the string before the final check. *)
Definition kebabNormalize (trimmed : jsstring) : jsstring :=
  let kebab := replaceRuns isSpace [HYPHEN] trimmed in
  let kebab := replaceRuns notAlnumHyphen [] kebab in
  let kebab := replaceRuns isHyphen [HYPHEN] kebab in
  toLowerCase kebab.

Definition toKebabCase (input : jsvalue) : result jsvalue :=
  match input with
  | JNull => Return JNull
  | JString input =>
      let trimmed := trim input in
      if (length trimmed =? 0)%nat then Return (JString [])
      else
        let kebab := kebabNormalize trimmed in
        if negb (test isLowerOrDigit kebab)
        then Throw (Error "Input cannot be converted to a valid kebab-case string")
        else Return (JString kebab)
  | _ => Throw (TypeError "Input must be a string or null")
  end.

(** ** [toCamelCase] of [few_shot_prompt.js] *)

Definition capitalizeFewShot (p : jsstring) : jsstring :=
  toUpperCase (charAt0 p) ++ toLowerCase (slice1 p).

Definition toCamelCaseFewShot (input : jsvalue) : jsstring :=
  match input with
  | JString input =>
      let parts := filterBoolean (splitRuns notAlnum (trim input)) in
      match parts with
      | [] => []
      | p0 :: others =>
          let first := toLowerCase p0 in
          let rest := join [] (map capitalizeFewShot others) in
          first ++ rest
      end
  | _ => []
  end.

(** ** The vocabulary of the specification *)

(** The segments of a string: its maximal runs of characters that are not
    separators, in order. *)
Fixpoint segments (sep : codeunit -> bool) (s : jsstring) : list jsstring :=
  match s with
  | [] => []
  | c :: r =>
      if sep c then segments sep r
      else
        match r with
        | [] => [[c]]
        | c' :: _ =>
            if sep c' then [c] :: segments sep r
            else
              match segments sep r with
              | w :: ws => (c :: w) :: ws
              | [] => [[c]]
              end
        end
  end.

(** A string with its first character in upper case. *)
Definition upperFirst (s : jsstring) : jsstring :=
  match s with
  | [] => []
  | c :: r => toUpperCase [c] ++ r
  end.

(** Step 4 of the specification of [toCamelCase], in its words: the
    segments of the trimmed string, the first one in lower case, each other
    one in lower case with its first character in upper case, concatenated. *)
Definition camelOfSegments (input : jsstring) : jsstring :=
  match segments isSeparator (trim input) with
  | [] => []
  | seg0 :: others =>
      concat (toLowerCase seg0 :: map (fun seg => upperFirst (toLowerCase seg)) others)
  end.

(** Step 2 of the specification of [toDotCase], in its words: a dot is put
    between every two neighbours of which the first is a lowercase letter or
    a digit and the second an uppercase letter. *)
Definition isBoundary (a b : codeunit) : bool := isLowerOrDigit a && isUpper b.

Fixpoint insertBoundaryDots (s : jsstring) : jsstring :=
  match s with
  | [] => []
  | a :: t =>
      match t with
      | b :: _ => if isBoundary a b then a :: DOT :: insertBoundaryDots t
                  else a :: insertBoundaryDots t
      | [] => [a]
      end
  end.

(** The shape of an output: which characters it has, and where the joining
    character [d] may stand. *)
Definition isKebabChar (c : codeunit) : bool := isLower c || isDigit c || isHyphen c.
Definition isDotChar (c : codeunit) : bool := isLower c || isDigit c || isDot c.

Definition startsWith (d : codeunit) (s : jsstring) : bool :=
  match s with
  | c :: _ => c =? d
  | [] => false
  end.

Fixpoint endsWith (d : codeunit) (s : jsstring) : bool :=
  match s with
  | [] => false
  | [c] => c =? d
  | _ :: t => endsWith d t
  end.

Fixpoint noDouble (d : codeunit) (s : jsstring) : bool :=
  match s with
  | a :: ((b :: _) as t) => negb ((a =? d) && (b =? d)) && noDouble d t
  | _ => true
  end.

(** A string of hyphens and punctuation only: it is not empty and has no
    letter, no digit and no white space. *)
Definition isPunctuation (c : codeunit) : bool := negb (isAlnum c) && negb (isSpace c).

Definition onlyPunctuation (s : jsstring) : bool := nonEmpty s && forallb isPunctuation s.

(** A string of ASCII letters, digits and separators only. *)
Definition isWordChar (c : codeunit) : bool := isAlnum c || isSeparator c.

(** * Proofs *)

(** ** Character classes *)

Ltac classes :=
  unfold isPunctuation, isWordChar, isKebabChar, isDotChar, isBoundary,
    asciiLower, asciiUpper, notAlnum, notAlnumDot, notAlnumHyphen,
    isSeparator, isSpace, isAlnum, isLowerOrDigit, isLetter, isASCII,
    isHyphen, isDot, isUpper, isLower, isDigit, between, HYPHEN, DOT,
    UNDERSCORE in *.

Ltac to_prop :=
  repeat match goal with
  | H : context [if ?b then _ else _] |- _ => destruct b eqn:?
  | |- context [if ?b then _ else _] => destruct b eqn:?
  end;
  repeat progress
    (rewrite ?negb_true_iff, ?negb_false_iff, ?orb_true_iff, ?orb_false_iff,
       ?andb_true_iff, ?andb_false_iff in *);
  rewrite ?N.leb_le, ?N.leb_gt, ?N.ltb_lt, ?N.ltb_ge, ?N.eqb_eq, ?N.eqb_neq in *.

Ltac chars := classes; to_prop; lia.

Lemma alnum_ascii c : isAlnum c = true -> isASCII c = true.
Proof. chars. Qed.

Lemma hyphen_ascii c : isHyphen c = true -> isASCII c = true.
Proof. chars. Qed.

Lemma separator_not_alnum c : isSeparator c = true -> isAlnum c = false.
Proof. chars. Qed.

Lemma space_separator c : isSpace c = true -> isSeparator c = true.
Proof. chars. Qed.

Lemma lower_alnum_kebab c :
  isAlnum c || isHyphen c = true -> isKebabChar (asciiLower c) = true.
Proof. chars. Qed.

Lemma lower_alnum_dot c :
  isAlnum c = true -> isLowerOrDigit (asciiLower c) = true.
Proof. chars. Qed.

Lemma lower_keeps_alnum c : isAlnum (asciiLower c) = isAlnum c.
Proof.
  destruct (isAlnum c) eqn:E; [| apply not_true_is_false; intro F]; chars.
Qed.

Lemma kebab_alnum c : isKebabChar c = true -> isAlnum c = isLowerOrDigit c.
Proof.
  intro H. destruct (isLowerOrDigit c) eqn:E; [| apply not_true_is_false; intro F]; chars.
Qed.

Lemma lower_hyphen c : (asciiLower c =? HYPHEN) = (c =? HYPHEN).
Proof.
  destruct (c =? HYPHEN) eqn:E; [| apply not_true_is_false; intro F]; chars.
Qed.

Lemma upper_of_lower c : asciiUpper (asciiLower c) = asciiUpper c.
Proof. chars. Qed.

Lemma lower_not_letter c : isLetter c = false -> asciiLower c = c.
Proof. chars. Qed.

Lemma upper_not_letter c : isLetter c = false -> asciiUpper c = c.
Proof. chars. Qed.

(** ** Lists of characters *)

Lemma forallb_impl (P Q : codeunit -> bool) (s : jsstring) :
  (forall c, P c = true -> Q c = true) ->
  forallb P s = true -> forallb Q s = true.
Proof.
  intros PQ. induction s as [|c r IH]; simpl; [reflexivity|].
  intro H. apply andb_true_iff in H as [Hc Hr].
  rewrite (PQ c Hc), (IH Hr). reflexivity.
Qed.

Lemma forallb_rev (P : codeunit -> bool) (s : jsstring) :
  forallb P (rev s) = forallb P s.
Proof.
  induction s as [|c r IH]; simpl; [reflexivity|].
  rewrite forallb_app, IH. simpl. rewrite andb_true_r. apply andb_comm.
Qed.

Lemma existsb_rev (P : codeunit -> bool) (s : jsstring) :
  existsb P (rev s) = existsb P s.
Proof.
  induction s as [|c r IH]; simpl; [reflexivity|].
  rewrite existsb_app, IH. simpl. rewrite orb_false_r. apply orb_comm.
Qed.

Lemma existsb_none_forallb (P : codeunit -> bool) (s : jsstring) :
  existsb P s = false <-> forallb (fun c => negb (P c)) s = true.
Proof.
  induction s as [|c r IH]; simpl; [tauto|].
  rewrite orb_false_iff, andb_true_iff, negb_true_iff, IH. tauto.
Qed.

Lemma existsb_map (P : codeunit -> bool) (f : codeunit -> codeunit) (s : jsstring) :
  (forall c, P (f c) = P c) -> existsb P (map f s) = existsb P s.
Proof.
  intro Hf. induction s as [|c r IH]; simpl; [reflexivity|].
  rewrite Hf, IH. reflexivity.
Qed.

Lemma map_fixed (f : codeunit -> codeunit) (P : codeunit -> bool) (s : jsstring) :
  (forall c, P c = true -> f c = c) -> forallb P s = true -> map f s = s.
Proof.
  intro Hf. induction s as [|c r IH]; simpl; [reflexivity|].
  intro H. apply andb_true_iff in H as [Hc Hr].
  rewrite (Hf c Hc), (IH Hr). reflexivity.
Qed.

Lemma nonEmpty_length (s : jsstring) : (length s =? 0)%nat = negb (nonEmpty s).
Proof. destruct s; reflexivity. Qed.

Lemma nonEmpty_true (s : jsstring) : nonEmpty s = true <-> s <> [].
Proof. destruct s; simpl; split; congruence. Qed.

Lemma eqString_eq (a b : jsstring) : eqString a b = true <-> a = b.
Proof.
  revert b. induction a as [|x a IH]; intros [|y b]; simpl; try (split; congruence).
  rewrite andb_true_iff, N.eqb_eq, IH. split.
  - intros [-> ->]. reflexivity.
  - intro E. injection E. auto.
Qed.

(** ** [trim] and the other strippers *)

Lemma dropWhile_none (p : codeunit -> bool) (s : jsstring) :
  existsb p s = false -> dropWhile p s = s.
Proof.
  destruct s as [|c r]; simpl; [reflexivity|].
  intro H. apply orb_false_iff in H as [-> _]. reflexivity.
Qed.

Lemma dropWhile_all (p : codeunit -> bool) (s : jsstring) :
  forallb p s = true -> dropWhile p s = [].
Proof.
  induction s as [|c r IH]; simpl; [reflexivity|].
  intro H. apply andb_true_iff in H as [-> Hr]. auto.
Qed.

Lemma forallb_dropWhile (P p : codeunit -> bool) (s : jsstring) :
  forallb P s = true -> forallb P (dropWhile p s) = true.
Proof.
  induction s as [|c r IH]; simpl; [reflexivity|].
  intro H. destruct (p c).
  - apply andb_true_iff in H as [_ Hr]. auto.
  - exact H.
Qed.

Lemma dropWhileEnd_none (p : codeunit -> bool) (s : jsstring) :
  existsb p s = false -> dropWhileEnd p s = s.
Proof.
  intro H. unfold dropWhileEnd.
  rewrite dropWhile_none by (rewrite existsb_rev; exact H).
  apply rev_involutive.
Qed.

Lemma forallb_dropWhileEnd (P p : codeunit -> bool) (s : jsstring) :
  forallb P s = true -> forallb P (dropWhileEnd p s) = true.
Proof.
  intro H. unfold dropWhileEnd. rewrite forallb_rev.
  apply forallb_dropWhile. rewrite forallb_rev. exact H.
Qed.

Lemma trim_none (s : jsstring) : test isSpace s = false -> trim s = s.
Proof.
  intro H. unfold trim. rewrite (dropWhile_none _ _ H). apply dropWhileEnd_none, H.
Qed.

Lemma forallb_trim (P : codeunit -> bool) (s : jsstring) :
  forallb P s = true -> forallb P (trim s) = true.
Proof. intro H. apply forallb_dropWhileEnd, forallb_dropWhile, H. Qed.

Lemma no_separator_no_space (s : jsstring) :
  test isSeparator s = false -> test isSpace s = false.
Proof.
  unfold test. rewrite !existsb_none_forallb. apply forallb_impl.
  intros c Hc. apply negb_true_iff in Hc. apply negb_true_iff.
  destruct (isSpace c) eqn:E; [|reflexivity].
  rewrite (space_separator c E) in Hc. discriminate.
Qed.

(** ** Case conversion of ASCII strings *)

Lemma toLowerCase_ascii (s : jsstring) :
  forallb isASCII s = true -> toLowerCase s = map asciiLower s.
Proof. intro H. unfold toLowerCase. rewrite H. reflexivity. Qed.

Lemma toUpperCase_ascii (s : jsstring) :
  forallb isASCII s = true -> toUpperCase s = map asciiUpper s.
Proof. intro H. unfold toUpperCase. rewrite H. reflexivity. Qed.

Lemma toLowerCase_alnum (s : jsstring) :
  forallb isAlnum s = true -> toLowerCase s = map asciiLower s.
Proof. intro H. apply toLowerCase_ascii. revert H. apply forallb_impl, alnum_ascii. Qed.

(** ** [replace] of the runs of a class *)

Lemma replaceRunsFrom_delete (cls : codeunit -> bool) (b : bool) (s : jsstring) :
  replaceRunsFrom cls [] b s = filter (fun c => negb (cls c)) s.
Proof.
  revert b. induction s as [|c r IH]; intro b; simpl; [reflexivity|].
  destruct (cls c); simpl.
  - destruct b; apply IH.
  - f_equal. apply IH.
Qed.

Lemma forallb_replaceRunsFrom (Q cls : codeunit -> bool) (by_ : jsstring) (b : bool)
    (s : jsstring) :
  forallb Q by_ = true ->
  forallb (fun c => cls c || Q c) s = true ->
  forallb Q (replaceRunsFrom cls by_ b s) = true.
Proof.
  intro Hby. revert b. induction s as [|c r IH]; intros b H; simpl; [reflexivity|].
  simpl in H. apply andb_true_iff in H as [Hc Hr].
  destruct (cls c); simpl in Hc.
  - destruct b; [auto|]. rewrite forallb_app, Hby. simpl. auto.
  - simpl. rewrite Hc. simpl. auto.
Qed.

Lemma existsb_replaceRunsFrom (Q cls : codeunit -> bool) (by_ : jsstring) (b : bool)
    (s : jsstring) :
  existsb Q by_ = false ->
  (forall c, cls c = true -> Q c = false) ->
  existsb Q (replaceRunsFrom cls by_ b s) = existsb Q s.
Proof.
  intros Hby Hcls. revert b. induction s as [|c r IH]; intro b; simpl; [reflexivity|].
  destruct (cls c) eqn:E.
  - rewrite (Hcls c E). simpl. destruct b; [apply IH|].
    rewrite existsb_app, Hby. simpl. apply IH.
  - simpl. rewrite IH. reflexivity.
Qed.

(** ** The shape of a string around a joining character *)

Lemma noDouble_cons (d a : codeunit) (t : jsstring) :
  noDouble d (a :: t) = negb ((a =? d) && startsWith d t) && noDouble d t.
Proof.
  destruct t as [|b r]; simpl; [|reflexivity].
  rewrite andb_false_r. reflexivity.
Qed.

Lemma startsWith_map (f : codeunit -> codeunit) (d : codeunit) (s : jsstring) :
  (forall c, (f c =? d) = (c =? d)) -> startsWith d (map f s) = startsWith d s.
Proof. intro Hf. destruct s; simpl; auto. Qed.

Lemma noDouble_map (f : codeunit -> codeunit) (d : codeunit) (s : jsstring) :
  (forall c, (f c =? d) = (c =? d)) -> noDouble d (map f s) = noDouble d s.
Proof.
  intro Hf. induction s as [|c r IH]; [reflexivity|].
  change (map f (c :: r)) with (f c :: map f r).
  rewrite !noDouble_cons, IH, Hf, startsWith_map by exact Hf. reflexivity.
Qed.

Lemma collapse_shape (d : codeunit) (b : bool) (s : jsstring) :
  noDouble d (replaceRunsFrom (fun c => c =? d) [d] b s) = true /\
  (b = true -> startsWith d (replaceRunsFrom (fun c => c =? d) [d] b s) = false).
Proof.
  revert b. induction s as [|c r IH]; intro b; simpl; [split; reflexivity|].
  destruct (c =? d) eqn:E.
  - destruct b.
    + apply IH.
    + destruct (IH true) as [Hn Hs]. split; [|discriminate].
      change ([d] ++ ?x) with (d :: x).
      rewrite noDouble_cons, Hn, (Hs eq_refl), andb_false_r. reflexivity.
  - destruct (IH false) as [Hn _]. split.
    + rewrite noDouble_cons, Hn, E. reflexivity.
    + intros _. simpl. exact E.
Qed.

(** ** [toKebabCase] *)

Lemma forallb_always (P : codeunit -> bool) (s : jsstring) :
  (forall c, P c = true) -> forallb P s = true.
Proof. intro H. induction s; simpl; [reflexivity|]. rewrite H. assumption. Qed.

Lemma forallb_mapped (P : codeunit -> bool) (f : codeunit -> codeunit) (s : jsstring) :
  forallb P (map f s) = forallb (fun c => P (f c)) s.
Proof. induction s as [|c r IH]; simpl; [reflexivity|]. rewrite IH. reflexivity. Qed.

(** Before it is put in lower case the string has ASCII letters, digits and
    hyphens only, so that the lower case is that of ASCII. *)
Lemma kebabNormalize_eq (t : jsstring) :
  let k := replaceRuns isHyphen [HYPHEN]
             (replaceRuns notAlnumHyphen [] (replaceRuns isSpace [HYPHEN] t)) in
  forallb (fun c => isAlnum c || isHyphen c) k = true /\
  kebabNormalize t = map asciiLower k.
Proof.
  intro k.
  assert (Hk : forallb (fun c => isAlnum c || isHyphen c) k = true).
  { subst k. unfold replaceRuns. apply forallb_replaceRunsFrom; [reflexivity|].
    apply forallb_impl with (P := fun c => isAlnum c || isHyphen c).
    - intros c Hc. rewrite Hc. apply orb_true_r.
    - apply forallb_replaceRunsFrom; [reflexivity|].
      apply forallb_always. intro c. unfold notAlnumHyphen.
      destruct (isAlnum c || isHyphen c); reflexivity. }
  split; [exact Hk|].
  unfold kebabNormalize. fold k. apply toLowerCase_ascii.
  revert Hk. apply forallb_impl. intros c Hc.
  apply orb_true_iff in Hc as [Hc|Hc]; [apply alnum_ascii | apply hyphen_ascii]; exact Hc.
Qed.

Lemma kebabNormalize_shape (t : jsstring) :
  forallb isKebabChar (kebabNormalize t) = true /\
  noDouble HYPHEN (kebabNormalize t) = true.
Proof.
  destruct (kebabNormalize_eq t) as [Hk ->]. split.
  - rewrite forallb_mapped. revert Hk. apply forallb_impl, lower_alnum_kebab.
  - rewrite noDouble_map by apply lower_hyphen.
    apply (collapse_shape HYPHEN false).
Qed.

(** The letters and digits of the string are those of the trimmed input:
    no step adds or removes one. *)
Lemma kebabNormalize_alnum (t : jsstring) :
  test isAlnum (kebabNormalize t) = test isAlnum t.
Proof.
  destruct (kebabNormalize_eq t) as [_ ->]. unfold test, replaceRuns.
  rewrite existsb_map by apply lower_keeps_alnum.
  rewrite !existsb_replaceRunsFrom; try reflexivity; intros c Hc; chars.
Qed.

Lemma kebabNormalize_test (t : jsstring) :
  test isLowerOrDigit (kebabNormalize t) = test isAlnum (kebabNormalize t).
Proof.
  destruct (kebabNormalize_shape t) as [H _]. unfold test.
  induction (kebabNormalize t) as [|c r IH]; simpl; [reflexivity|].
  simpl in H. apply andb_true_iff in H as [Hc Hr].
  rewrite (kebab_alnum c Hc), (IH Hr). reflexivity.
Qed.

(** What [toKebabCase] does on a string, case by case. *)
Lemma toKebabCase_string (s : jsstring) :
  toKebabCase (JString s) =
    if (length (trim s) =? 0)%nat then Return (JString [])
    else if test isAlnum (trim s) then Return (JString (kebabNormalize (trim s)))
    else Throw (Error "Input cannot be converted to a valid kebab-case string").
Proof.
  unfold toKebabCase. destruct (length (trim s) =? 0)%nat; [reflexivity|].
  rewrite kebabNormalize_test, kebabNormalize_alnum.
  destruct (test isAlnum (trim s)); reflexivity.
Qed.

(** C1, as the code has it: a non-empty string returned by [toKebabCase] has
    lowercase ASCII letters, ASCII digits and hyphens only, and no two
    hyphens in a row.  (A hyphen at its start or at its end is not excluded:
    the function removes none.) *)
Theorem toKebabCase_output_shape (input : jsvalue) (out : jsstring) :
  toKebabCase input = Return (JString out) ->
  out <> [] ->
  forallb isKebabChar out = true /\ noDouble HYPHEN out = true.
Proof.
  intros H Hne. destruct input; try discriminate H.
  rewrite toKebabCase_string in H.
  destruct (length (trim s) =? 0)%nat.
  - injection H as <-. contradiction.
  - destruct (test isAlnum (trim s)); [|discriminate H].
    injection H as <-. apply kebabNormalize_shape.
Qed.

(** C3: [toKebabCase] returns [null] exactly when its input is [null]; it
    throws a [TypeError] exactly when its input is neither [null] nor a
    string; on a string whose trimmed form is not empty it throws an [Error]
    exactly when the normalized string has no ASCII letter and no digit; and
    on every other string it returns a string. *)
Theorem toKebabCase_outcomes (input : jsvalue) :
  (toKebabCase input = Return JNull <-> input = JNull) /\
  ((exists m, toKebabCase input = Throw (TypeError m)) <->
   (input <> JNull /\ typeof input <> TString)) /\
  (forall s, input = JString s -> trim s <> [] ->
     ((exists m, toKebabCase input = Throw (Error m)) <->
      test isAlnum (kebabNormalize (trim s)) = false)) /\
  (forall s, input = JString s ->
     trim s = [] \/ test isAlnum (kebabNormalize (trim s)) = true ->
     exists out, toKebabCase input = Return (JString out)).
Proof.
  split; [|split; [|split]].
  - destruct input; try (split; [discriminate|]; discriminate); [split; reflexivity|].
    split; [|discriminate]. rewrite toKebabCase_string.
    destruct (length (trim s) =? 0)%nat; [discriminate|].
    destruct (test isAlnum (trim s)); discriminate.
  - destruct input;
      try (split; [intros _; split; discriminate | intros _; eexists; reflexivity]).
    + split; [intros [m Hm]; discriminate Hm | intros [F _]; contradiction].
    + split; [|intros [_ F]; contradiction].
      intros [m Hm]. rewrite toKebabCase_string in Hm.
      destruct (length (trim s) =? 0)%nat; [discriminate|].
      destruct (test isAlnum (trim s)); discriminate.
  - intros s -> Hne. rewrite toKebabCase_string, kebabNormalize_alnum.
    rewrite nonEmpty_length.
    apply nonEmpty_true in Hne. rewrite Hne. simpl.
    destruct (test isAlnum (trim s)); split.
    + intros [m Hm]. discriminate.
    + discriminate.
    + reflexivity.
    + intros _. eexists. reflexivity.
  - intros s -> H. rewrite toKebabCase_string, nonEmpty_length.
    rewrite kebabNormalize_alnum in H.
    destruct (nonEmpty (trim s)) eqn:E; simpl; [|eexists; reflexivity].
    destruct H as [H|H].
    + rewrite H in E. discriminate.
    + rewrite H. eexists. reflexivity.
Qed.

(** ** [split] and the segments of a string *)

Lemma segments_plain (sep : codeunit -> bool) (p : jsstring) :
  existsb sep p = false ->
  segments sep p = if nonEmpty p then [p] else [].
Proof.
  induction p as [|c r IH]; [reflexivity|].
  intro H. simpl in H. apply orb_false_iff in H as [Hc Hr].
  specialize (IH Hr). simpl. rewrite Hc.
  destruct r as [|c' r']; [reflexivity|].
  simpl in Hr. apply orb_false_iff in Hr as [Hc' _]. rewrite Hc'.
  rewrite IH. reflexivity.
Qed.

Lemma segments_sep_cons (sep : codeunit -> bool) (c : codeunit) (r : jsstring) :
  sep c = true -> segments sep (c :: r) = segments sep r.
Proof. intro H. simpl. rewrite H. reflexivity. Qed.

Lemma segments_app_sep (sep : codeunit -> bool) (p : jsstring) (c : codeunit)
    (r : jsstring) :
  existsb sep p = false -> sep c = true ->
  segments sep (p ++ c :: r) = (if nonEmpty p then [p] else []) ++ segments sep r.
Proof.
  intros Hp Hc. induction p as [|a p IH].
  - simpl. rewrite Hc. reflexivity.
  - simpl in Hp. apply orb_false_iff in Hp as [Ha Hp]. specialize (IH Hp).
    destruct p as [|a' p'].
    + simpl. rewrite Ha, Hc. reflexivity.
    + simpl in Hp. apply orb_false_iff in Hp as [Ha' _].
      change ((a :: a' :: p') ++ c :: r) with (a :: (a' :: p') ++ c :: r).
      change (segments sep (a :: (a' :: p') ++ c :: r))
        with (if sep a then segments sep ((a' :: p') ++ c :: r)
              else if sep a' then [a] :: segments sep ((a' :: p') ++ c :: r)
              else match segments sep ((a' :: p') ++ c :: r) with
                   | w :: ws => (a :: w) :: ws
                   | [] => [[a]]
                   end).
      rewrite Ha, Ha', IH. reflexivity.
Qed.

Lemma filter_splitRunsFrom (sep : codeunit -> bool) (s piece : jsstring) (b : bool) :
  existsb sep piece = false -> (b = true -> piece = []) ->
  filterBoolean (splitRunsFrom sep piece b s) = segments sep (piece ++ s).
Proof.
  revert piece b. induction s as [|c r IH]; intros piece b Hp Hb.
  - rewrite app_nil_r, (segments_plain sep piece Hp). simpl.
    destruct (nonEmpty piece); reflexivity.
  - simpl. destruct (sep c) eqn:Hc.
    + rewrite (segments_app_sep sep piece c r Hp Hc). destruct b.
      * rewrite (Hb eq_refl). apply (IH [] true); auto.
      * simpl. rewrite (IH [] true) by auto. simpl.
        destruct (nonEmpty piece); reflexivity.
    + rewrite (IH (piece ++ [c]) false).
      * rewrite <- app_assoc. reflexivity.
      * rewrite existsb_app, Hp. simpl. rewrite Hc. reflexivity.
      * discriminate.
Qed.

Lemma filter_splitRuns (sep : codeunit -> bool) (s : jsstring) :
  filterBoolean (splitRuns sep s) = segments sep s.
Proof. apply (filter_splitRunsFrom sep s [] false); [reflexivity | discriminate]. Qed.

Lemma join_nothing (a : list jsstring) : join [] a = concat a.
Proof.
  induction a as [|x r IH]; [reflexivity|].
  destruct r as [|y r'].
  - simpl. rewrite app_nil_r. reflexivity.
  - change (join [] (x :: y :: r')) with (x ++ [] ++ join [] (y :: r')).
    rewrite IH. reflexivity.
Qed.

(** ** [toCamelCase] *)

Lemma toCamelCase_string (s : jsstring) :
  toCamelCase (JString s) = Return (camelOfString s).
Proof. reflexivity. Qed.

Lemma toDotCase_string (s : jsstring) :
  toDotCase (JString s) = Return (dotOfString s).
Proof. reflexivity. Qed.

Lemma capitalize_upperFirst (seg : jsstring) :
  capitalize seg = upperFirst (toLowerCase seg).
Proof. unfold capitalize. destruct (toLowerCase seg); reflexivity. Qed.

Lemma camelOfString_separated (s : jsstring) :
  trim s <> [] -> test isSeparator (trim s) = true ->
  camelOfString s = camelOfSegments s.
Proof.
  intros Hne Hsep. unfold camelOfString, camelOfSegments.
  apply nonEmpty_true in Hne. rewrite nonEmpty_length, Hne, Hsep. cbn [negb].
  rewrite filter_splitRuns.
  destruct (segments isSeparator (trim s)) as [|seg0 others]; [reflexivity|].
  rewrite join_nothing. do 2 f_equal.
  apply map_ext, capitalize_upperFirst.
Qed.

Lemma camelOfString_plain (s : jsstring) :
  test isSeparator (trim s) = false ->
  camelOfString s =
    if test isLetter (trim s) && eqString (trim s) (toUpperCase (trim s))
    then toLowerCase (trim s) else trim s.
Proof.
  intro Hsep. unfold camelOfString. rewrite Hsep. simpl.
  destruct (trim s) as [|c r] eqn:E; reflexivity.
Qed.

(** C2: on a string whose trimmed form is not empty and has a separator,
    [toCamelCase] returns the segments of the trimmed string (the pieces
    between its runs of separators, the empty ones left out) concatenated
    with nothing between them, the first one in lower case and each other
    one in lower case with its first character in upper case; the result is
    the empty string when there is no segment. *)
Theorem toCamelCase_with_separators (s : jsstring) :
  trim s <> [] ->
  test isSeparator (trim s) = true ->
  toCamelCase (JString s) = Return (camelOfSegments s).
Proof.
  intros Hne Hsep. rewrite toCamelCase_string. f_equal.
  apply camelOfString_separated; assumption.
Qed.

(** C4: on a string whose trimmed form is not empty and has no separator,
    [toCamelCase] returns the lower case of the trimmed string when it has
    an ASCII letter and is equal to its own upper case, and the trimmed
    string itself otherwise. *)
Theorem toCamelCase_without_separator (s : jsstring) :
  trim s <> [] ->
  test isSeparator (trim s) = false ->
  (test isLetter (trim s) = true /\ trim s = toUpperCase (trim s) ->
   toCamelCase (JString s) = Return (toLowerCase (trim s))) /\
  (~ (test isLetter (trim s) = true /\ trim s = toUpperCase (trim s)) ->
   toCamelCase (JString s) = Return (trim s)).
Proof.
  intros _ Hsep. rewrite toCamelCase_string, (camelOfString_plain s Hsep). split.
  - intros [Hl Hu]. apply eqString_eq in Hu. rewrite Hl, Hu. reflexivity.
  - intro H. destruct (test isLetter (trim s)) eqn:Hl; [|reflexivity].
    destruct (eqString (trim s) (toUpperCase (trim s))) eqn:Hu; [|reflexivity].
    apply eqString_eq in Hu. exfalso. apply H. split; [reflexivity | exact Hu].
Qed.

(** C8: when the string [y] returned by [toCamelCase] has no separator and
    is not at once equal to its own upper case and in possession of a letter,
    [toCamelCase] returns [y] on [y]. *)
Theorem toCamelCase_stable (x : jsvalue) (y : jsstring) :
  toCamelCase x = Return y ->
  test isSeparator y = false ->
  ~ (y = toUpperCase y /\ test isLetter y = true) ->
  toCamelCase (JString y) = Return y.
Proof.
  intros _ Hsep Hup. rewrite toCamelCase_string. f_equal.
  assert (Ht : trim y = y) by (apply trim_none, no_separator_no_space, Hsep).
  rewrite camelOfString_plain; rewrite Ht; [|exact Hsep].
  destruct (test isLetter y) eqn:Hl; [|reflexivity].
  destruct (eqString y (toUpperCase y)) eqn:Hu; [|reflexivity].
  apply eqString_eq in Hu. exfalso. apply Hup. split; [exact Hu | reflexivity].
Qed.

(** C9: [toCamelCase] and [toDotCase] treat a number as the string
    [String(n)] of its decimal form, so that [toCamelCase(123)] is ['123']
    and [toDotCase(2021)] is ['2021']; on a value that is neither a string
    nor a number both throw a [TypeError], and on a string or a number
    neither throws. *)
Theorem number_and_type_contract :
  (forall n, toCamelCase (JNumber n) = toCamelCase (JString (stringOfNumber n))) /\
  (forall n, toDotCase (JNumber n) = toDotCase (JString (stringOfNumber n))) /\
  toCamelCase (JNumber (NumInt 123)) = Return (js "123") /\
  toDotCase (JNumber (NumInt 2021)) = Return (js "2021") /\
  (forall v, typeof v <> TString -> typeof v <> TNumber ->
     toCamelCase v = Throw (TypeError "toCamelCase expects a string or number") /\
     toDotCase v = Throw (TypeError "toDotCase expects a string or number")) /\
  (forall v, typeof v = TString \/ typeof v = TNumber ->
     exists out1 out2, toCamelCase v = Return out1 /\ toDotCase v = Return out2).
Proof.
  repeat split; try reflexivity.
  - destruct v; simpl in *; try reflexivity; contradiction.
  - destruct v; simpl in *; try reflexivity; contradiction.
  - intros v H. destruct v; simpl in H; destruct H as [H|H]; try discriminate H;
      do 2 eexists; split; reflexivity.
Qed.

(** ** [toDotCase]: the camelCase boundaries *)

Lemma insertBoundaryDots_cons (a : codeunit) (t : jsstring) :
  (forall b, isBoundary a b = false) ->
  insertBoundaryDots (a :: t) = a :: insertBoundaryDots t.
Proof.
  intro H. destruct t as [|b r]; [reflexivity|].
  change (insertBoundaryDots (a :: b :: r))
    with (if isBoundary a b then a :: DOT :: insertBoundaryDots (b :: r)
          else a :: insertBoundaryDots (b :: r)).
  rewrite H. reflexivity.
Qed.

Lemma upper_no_boundary (a b : codeunit) : isUpper a = true -> isBoundary a b = false.
Proof. intro H. apply not_true_is_false. intro F. chars. Qed.

Lemma replaceCamelBoundaries_bounded (n : nat) (s : jsstring) :
  (length s <= n)%nat -> replaceCamelBoundaries s = insertBoundaryDots s.
Proof.
  revert s. induction n as [|n IH]; intros s Hn.
  - destruct s; [reflexivity | simpl in Hn; lia].
  - destruct s as [|a [|b r]]; try reflexivity.
    change (replaceCamelBoundaries (a :: b :: r))
      with (if isLowerOrDigit a && isUpper b
            then a :: DOT :: b :: replaceCamelBoundaries r
            else a :: replaceCamelBoundaries (b :: r)).
    change (insertBoundaryDots (a :: b :: r))
      with (if isBoundary a b then a :: DOT :: insertBoundaryDots (b :: r)
            else a :: insertBoundaryDots (b :: r)).
    unfold isBoundary at 1. simpl in Hn.
    destruct (isLowerOrDigit a && isUpper b) eqn:E.
    + apply andb_true_iff in E as [_ Hb].
      rewrite insertBoundaryDots_cons by (intro; apply upper_no_boundary, Hb).
      rewrite (IH r) by lia. reflexivity.
    + rewrite (IH (b :: r)) by (simpl; lia). reflexivity.
Qed.

Lemma replaceCamelBoundaries_spec (s : jsstring) :
  replaceCamelBoundaries s = insertBoundaryDots s.
Proof. apply (replaceCamelBoundaries_bounded (length s)). lia. Qed.

Lemma insertBoundaryDots_unfold (a b : codeunit) (r : jsstring) :
  insertBoundaryDots (a :: b :: r) =
    if isBoundary a b then a :: DOT :: insertBoundaryDots (b :: r)
    else a :: insertBoundaryDots (b :: r).
Proof. reflexivity. Qed.

(** Cut anywhere between two neighbours [a] and [b], the result is the result
    of the left part, a dot when [a] and [b] make a boundary and nothing
    otherwise, and the result of the right part. *)
Lemma insertBoundaryDots_cut (x : jsstring) (a b : codeunit) (y : jsstring) :
  insertBoundaryDots ((x ++ [a]) ++ b :: y) =
    insertBoundaryDots (x ++ [a])
    ++ (if isBoundary a b then [DOT] else [])
    ++ insertBoundaryDots (b :: y).
Proof.
  induction x as [|c x IH].
  - change (([] ++ [a]) ++ b :: y) with (a :: b :: y).
    rewrite insertBoundaryDots_unfold. destruct (isBoundary a b); reflexivity.
  - destruct x as [|h x'].
    + change ((([c] ++ [a]) ++ b :: y)) with (c :: ([] ++ [a]) ++ b :: y).
      change ([c] ++ [a]) with (c :: [] ++ [a]).
      change (([] ++ [a]) ++ b :: y) with (a :: b :: y) in *.
      change ([] ++ [a]) with [a] in *.
      rewrite !(insertBoundaryDots_unfold c a), IH.
      destruct (isBoundary c a); reflexivity.
    + change (((c :: h :: x') ++ [a]) ++ b :: y)
        with (c :: h :: (x' ++ [a]) ++ b :: y).
      change ((c :: h :: x') ++ [a]) with (c :: h :: x' ++ [a]).
      change (((h :: x') ++ [a]) ++ b :: y) with (h :: (x' ++ [a]) ++ b :: y) in IH.
      change ((h :: x') ++ [a]) with (h :: x' ++ [a]) in IH.
      rewrite !(insertBoundaryDots_unfold c h), IH.
      destruct (isBoundary c h); reflexivity.
Qed.

Lemma insertBoundaryDots_none (s : jsstring) :
  existsb isLowerOrDigit s = false -> insertBoundaryDots s = s.
Proof.
  induction s as [|a t IH]; [reflexivity|].
  intro H. simpl in H. apply orb_false_iff in H as [Ha Ht].
  rewrite insertBoundaryDots_cons, (IH Ht); [reflexivity|].
  intro b. unfold isBoundary. rewrite Ha. reflexivity.
Qed.

(** C6: [toDotCase] puts a dot at every place of the trimmed string where a
    lowercase ASCII letter or a digit is followed at once by an uppercase
    ASCII letter: the one pass of the global substitution, in which a match
    takes both characters and inserted dots are not read again, reaches
    every such place and no other.  This comes before the other characters are normalized
    and the string is put in lower case; ['firstName'] gives
    ['first.name']. *)
Theorem toDotCase_breaks_boundaries :
  (forall s, replaceCamelBoundaries s = insertBoundaryDots s) /\
  (forall x a b y,
     replaceCamelBoundaries ((x ++ [a]) ++ b :: y) =
       replaceCamelBoundaries (x ++ [a])
       ++ (if isLowerOrDigit a && isUpper b then [DOT] else [])
       ++ replaceCamelBoundaries (b :: y)) /\
  (forall s, toDotCase (JString s) =
             Return (dotNormalize (insertBoundaryDots (trim s)))) /\
  toDotCase (JString (js "firstName")) = Return (js "first.name").
Proof.
  split; [exact replaceCamelBoundaries_spec|].
  split; [intros x a b y; rewrite !replaceCamelBoundaries_spec;
          apply insertBoundaryDots_cut|].
  split; [|reflexivity].
  intro s. rewrite toDotCase_string. f_equal. unfold dotOfString.
  rewrite replaceCamelBoundaries_spec.
  destruct (trim s); reflexivity.
Qed.

(** ** [toDotCase]: the shape of the output *)

Lemma splitCharFrom_pieces (d : codeunit) (Q : codeunit -> bool) (s piece : jsstring) :
  forallb Q piece = true ->
  forallb (fun c => (c =? d) || Q c) s = true ->
  Forall (fun p => forallb Q p = true) (splitCharFrom d piece s).
Proof.
  revert piece. induction s as [|c r IH]; intros piece Hp Hs; simpl.
  - constructor; [exact Hp | constructor].
  - simpl in Hs. apply andb_true_iff in Hs as [Hc Hr].
    destruct (c =? d); simpl in Hc.
    + constructor; [exact Hp|]. apply IH; [reflexivity | exact Hr].
    + apply IH; [|exact Hr]. rewrite forallb_app, Hp. simpl. rewrite Hc. reflexivity.
Qed.

Lemma Forall_filterBoolean (P : jsstring -> Prop) (a : list jsstring) :
  Forall P a -> Forall (fun p => nonEmpty p = true /\ P p) (filterBoolean a).
Proof.
  induction 1 as [|p a Hp _ IH]; simpl; [constructor|].
  destruct (nonEmpty p) eqn:E; [constructor; auto | exact IH].
Qed.

Lemma starts_none (d : codeunit) (Q : codeunit -> bool) (s : jsstring) :
  (forall c, Q c = true -> (c =? d) = false) ->
  forallb Q s = true -> startsWith d s = false.
Proof.
  intros HQ H. destruct s as [|c r]; [reflexivity|].
  simpl in *. apply andb_true_iff in H as [Hc _]. auto.
Qed.

Lemma ends_none (d : codeunit) (Q : codeunit -> bool) (s : jsstring) :
  (forall c, Q c = true -> (c =? d) = false) ->
  forallb Q s = true -> endsWith d s = false.
Proof.
  intros HQ. induction s as [|c r IH]; [reflexivity|].
  intro H. simpl in H. apply andb_true_iff in H as [Hc Hr].
  destruct r as [|c' r']; [simpl; auto | exact (IH Hr)].
Qed.

Lemma double_none (d : codeunit) (Q : codeunit -> bool) (s : jsstring) :
  (forall c, Q c = true -> (c =? d) = false) ->
  forallb Q s = true -> noDouble d s = true.
Proof.
  intros HQ. induction s as [|c r IH]; [reflexivity|].
  intro H. simpl in H. apply andb_true_iff in H as [Hc Hr].
  rewrite noDouble_cons, (HQ c Hc), (IH Hr). reflexivity.
Qed.

Lemma endsWith_app (d : codeunit) (x y : jsstring) :
  y <> [] -> endsWith d (x ++ y) = endsWith d y.
Proof.
  intro Hy. induction x as [|c r IH]; [reflexivity|].
  simpl. destruct (r ++ y) eqn:E; [|exact IH].
  apply app_eq_nil in E as [_ E]. contradiction.
Qed.

Lemma startsWith_app (d : codeunit) (x y : jsstring) :
  x <> [] -> startsWith d (x ++ y) = startsWith d x.
Proof. destruct x; [contradiction | reflexivity]. Qed.

Lemma noDouble_app (d : codeunit) (x y : jsstring) :
  noDouble d (x ++ y) =
    noDouble d x && noDouble d y && negb (endsWith d x && startsWith d y).
Proof.
  induction x as [|c r IH].
  - simpl. rewrite andb_true_r. reflexivity.
  - change ((c :: r) ++ y) with (c :: r ++ y).
    rewrite !noDouble_cons, IH.
    destruct r as [|c' r'].
    + simpl. destruct (c =? d), (startsWith d y), (noDouble d y); reflexivity.
    + change (endsWith d (c :: c' :: r')) with (endsWith d (c' :: r')).
      rewrite startsWith_app by discriminate.
      destruct (negb ((c =? d) && startsWith d (c' :: r'))); simpl; [|reflexivity].
      reflexivity.
Qed.

(** Non-empty pieces without the joining character, once joined. *)
Lemma join_shape (d : codeunit) (Q : codeunit -> bool) (a : list jsstring) :
  (forall c, Q c = true -> (c =? d) = false) ->
  Forall (fun p => nonEmpty p = true /\ forallb Q p = true) a ->
  forallb (fun c => Q c || (c =? d)) (join [d] a) = true /\
  startsWith d (join [d] a) = false /\
  endsWith d (join [d] a) = false /\
  noDouble d (join [d] a) = true /\
  (a <> [] -> join [d] a <> []).
Proof.
  intro HQ. induction 1 as [|x r [Hx HxQ] Hr IH].
  - simpl. repeat split; try reflexivity. intro F. contradiction.
  - assert (HxQ' : forallb (fun c => Q c || (c =? d)) x = true).
    { revert HxQ. apply forallb_impl. intros c Hc. rewrite Hc. reflexivity. }
    apply nonEmpty_true in Hx.
    destruct r as [|y r'].
    + simpl. repeat split.
      * exact HxQ'.
      * exact (starts_none d Q x HQ HxQ).
      * exact (ends_none d Q x HQ HxQ).
      * exact (double_none d Q x HQ HxQ).
      * intros _. exact Hx.
    + destruct IH as (IH1 & IH2 & IH3 & IH4 & IH5).
      specialize (IH5 ltac:(discriminate)).
      change (join [d] (x :: y :: r')) with (x ++ d :: join [d] (y :: r')).
      repeat split.
      * rewrite forallb_app, HxQ'. simpl. rewrite N.eqb_refl, orb_true_r. exact IH1.
      * rewrite startsWith_app by exact Hx. exact (starts_none d Q x HQ HxQ).
      * rewrite endsWith_app by discriminate.
        destruct (join [d] (y :: r')) eqn:E; [contradiction | exact IH3].
      * rewrite noDouble_app, noDouble_cons, (double_none d Q x HQ HxQ), IH2, IH4.
        rewrite (ends_none d Q x HQ HxQ), andb_false_r. reflexivity.
      * intros _ F. apply app_eq_nil in F as [_ F]. discriminate.
Qed.

Lemma dotNormalize_shape (x : jsstring) :
  dotNormalize x <> [] ->
  forallb isDotChar (dotNormalize x) = true /\
  startsWith DOT (dotNormalize x) = false /\
  endsWith DOT (dotNormalize x) = false /\
  noDouble DOT (dotNormalize x) = true.
Proof.
  unfold dotNormalize, replaceRuns.
  set (t := stripDots
              (replaceRunsFrom isDot [DOT] false
                 (replaceRunsFrom notAlnumDot [DOT] false x))).
  assert (Ht : forallb (fun c => isDot c || isAlnum c) t = true).
  { subst t. unfold stripDots. apply forallb_dropWhileEnd, forallb_dropWhile.
    apply forallb_replaceRunsFrom; [reflexivity|].
    apply forallb_impl with (P := fun c => isDot c || isAlnum c).
    - intros c Hc. rewrite Hc. apply orb_true_r.
    - apply forallb_replaceRunsFrom; [reflexivity|].
      apply forallb_always. intro c. unfold notAlnumDot.
      destruct (isAlnum c), (isDot c); reflexivity. }
  destruct (length t =? 0)%nat; [intro F; contradiction|]. intros _.
  pose proof (splitCharFrom_pieces DOT isAlnum t [] eq_refl Ht) as Hp.
  apply Forall_filterBoolean in Hp.
  assert (Hs : Forall (fun p => nonEmpty p = true /\ forallb isLowerOrDigit p = true)
                 (map toLowerCase (filterBoolean (splitChar DOT t)))).
  { apply Forall_map. revert Hp. apply Forall_impl. intros p [Hn Ha].
    rewrite toLowerCase_alnum by exact Ha. split.
    - destruct p; [discriminate | reflexivity].
    - rewrite forallb_mapped. revert Ha. apply forallb_impl, lower_alnum_dot. }
  destruct (join_shape DOT isLowerOrDigit _ ltac:(intros c Hc; chars) Hs)
    as (H1 & H2 & H3 & H4 & _).
  repeat split; assumption.
Qed.

Lemma toDotCase_number (n : jsnumber) :
  toDotCase (JNumber n) = Return (dotOfString (stringOfNumber n)).
Proof. reflexivity. Qed.


Lemma dotOfString_shape (s : jsstring) :
  dotOfString s <> [] ->
  forallb isDotChar (dotOfString s) = true /\
  startsWith DOT (dotOfString s) = false /\
  endsWith DOT (dotOfString s) = false /\
  noDouble DOT (dotOfString s) = true.
Proof.
  unfold dotOfString. destruct (length (trim s) =? 0)%nat; [intro F; contradiction|].
  apply dotNormalize_shape.
Qed.

(** C7: a non-empty string returned by [toDotCase] has lowercase ASCII
    letters, ASCII digits and dots only; it does not start with a dot, does
    not end with a dot, and has no two dots in a row. *)
Theorem toDotCase_output_shape (input : jsvalue) (out : jsstring) :
  toDotCase input = Return out ->
  out <> [] ->
  forallb isDotChar out = true /\
  startsWith DOT out = false /\
  endsWith DOT out = false /\
  noDouble DOT out = true.
Proof.
  intros H Hne. destruct input; try discriminate H.
  - rewrite toDotCase_number in H. injection H as <-.
    apply dotOfString_shape, Hne.
  - rewrite toDotCase_string in H. injection H as <-.
    apply dotOfString_shape, Hne.
Qed.

(** ** Strings of hyphens and punctuation *)

Lemma punctuation_facts (s : jsstring) :
  onlyPunctuation s = true ->
  s <> [] /\ trim s = s /\ test isAlnum s = false /\ test isLetter s = false.
Proof.
  unfold onlyPunctuation. intro H. apply andb_true_iff in H as [Hn Hp].
  split; [apply nonEmpty_true, Hn|]. split; [|split].
  - apply trim_none. apply existsb_none_forallb. revert Hp.
    apply forallb_impl. intros c Hc. chars.
  - apply existsb_none_forallb. revert Hp.
    apply forallb_impl. intros c Hc. chars.
  - apply existsb_none_forallb. revert Hp.
    apply forallb_impl. intros c Hc. chars.
Qed.

Lemma dotNormalize_no_alnum (s : jsstring) :
  test isAlnum s = false -> dotNormalize s = [].
Proof.
  intro H. unfold dotNormalize, replaceRuns, stripDots.
  rewrite dropWhile_all; [reflexivity|].
  apply forallb_replaceRunsFrom; [reflexivity|].
  apply forallb_impl with (P := isDot); [intros c Hc; rewrite Hc; reflexivity|].
  apply forallb_replaceRunsFrom; [reflexivity|].
  apply existsb_none_forallb in H. revert H.
  apply forallb_impl. intros c Hc. unfold notAlnumDot.
  apply negb_true_iff in Hc. rewrite Hc. destruct (isDot c); reflexivity.
Qed.

Lemma segments_all_separators (sep : codeunit -> bool) (s : jsstring) :
  forallb sep s = true -> segments sep s = [].
Proof.
  induction s as [|c r IH]; [reflexivity|].
  intro H. simpl in H. apply andb_true_iff in H as [Hc Hr].
  rewrite segments_sep_cons by exact Hc. auto.
Qed.

Lemma segments_chars (Q sep : codeunit -> bool) (s : jsstring) :
  forallb (fun c => sep c || Q c) s = true ->
  Forall (fun p => forallb Q p = true) (segments sep s).
Proof.
  induction s as [|c r IH]; [constructor|].
  intro H. simpl in H. apply andb_true_iff in H as [Hc Hr]. specialize (IH Hr).
  simpl. destruct (sep c); [exact IH|]. simpl in Hc.
  destruct r as [|c' r'].
  - constructor; [simpl; rewrite Hc; reflexivity | constructor].
  - destruct (sep c').
    + constructor; [simpl; rewrite Hc; reflexivity | exact IH].
    + destruct (segments sep (c' :: r')) as [|w ws].
      * constructor; [simpl; rewrite Hc; reflexivity | constructor].
      * inversion IH as [|? ? Hw Hws]; subst.
        constructor; [simpl; rewrite Hc; exact Hw | exact Hws].
Qed.

Lemma segments_unfold (sep : codeunit -> bool) (c c' : codeunit) (r : jsstring) :
  segments sep (c :: c' :: r) =
    if sep c then segments sep (c' :: r)
    else if sep c' then [c] :: segments sep (c' :: r)
    else match segments sep (c' :: r) with
         | w :: ws => (c :: w) :: ws
         | [] => [[c]]
         end.
Proof. reflexivity. Qed.

Lemma concat_segments (sep : codeunit -> bool) (s : jsstring) :
  concat (segments sep s) = filter (fun c => negb (sep c)) s.
Proof.
  induction s as [|c r IH]; [reflexivity|].
  destruct r as [|c' r'].
  - simpl. destruct (sep c); reflexivity.
  - rewrite segments_unfold.
    change (filter (fun c => negb (sep c)) (c :: c' :: r'))
      with (if negb (sep c) then c :: filter (fun c => negb (sep c)) (c' :: r')
            else filter (fun c => negb (sep c)) (c' :: r')).
    rewrite <- IH.
    destruct (sep c); simpl negb; cbv iota; [reflexivity|].
    destruct (sep c'); [reflexivity|].
    destruct (segments sep (c' :: r')); reflexivity.
Qed.

Lemma segments_ext (sep1 sep2 : codeunit -> bool) (s : jsstring) :
  forallb (fun c => Bool.eqb (sep1 c) (sep2 c)) s = true ->
  segments sep1 s = segments sep2 s.
Proof.
  induction s as [|c r IH]; [reflexivity|].
  intro H. simpl in H. apply andb_true_iff in H as [Hc Hr]. specialize (IH Hr).
  apply eqb_prop in Hc.
  destruct r as [|c' r'].
  - simpl. rewrite Hc. reflexivity.
  - simpl in Hr. apply andb_true_iff in Hr as [Hc' _]. apply eqb_prop in Hc'.
    rewrite !segments_unfold, IH, Hc, Hc'. reflexivity.
Qed.

Lemma filter_keeps_all (p : codeunit -> bool) (s : jsstring) :
  existsb p s = false -> filter (fun c => negb (p c)) s = s.
Proof.
  induction s as [|c r IH]; [reflexivity|].
  intro H. simpl in H. apply orb_false_iff in H as [Hc Hr].
  simpl. rewrite Hc, (IH Hr). reflexivity.
Qed.

Lemma toUpperCase_one (c : codeunit) :
  isASCII c = true -> toUpperCase [c] = [asciiUpper c].
Proof. intro H. unfold toUpperCase. simpl. rewrite H. reflexivity. Qed.

(** A segment without any letter keeps its characters in [toCamelCase]. *)
Lemma segment_unchanged (seg : jsstring) :
  forallb (fun c => isASCII c && negb (isLetter c)) seg = true ->
  toLowerCase seg = seg /\ upperFirst seg = seg.
Proof.
  intro H. split.
  - rewrite toLowerCase_ascii.
    + revert H. apply map_fixed. intros c Hc.
      apply andb_true_iff in Hc as [_ Hc]. apply negb_true_iff in Hc.
      apply lower_not_letter, Hc.
    + revert H. apply forallb_impl. intros c Hc.
      apply andb_true_iff in Hc as [Hc _]. exact Hc.
  - destruct seg as [|c r]; [reflexivity|].
    simpl in H. apply andb_true_iff in H as [Hc _].
    apply andb_true_iff in Hc as [Ha Hl]. apply negb_true_iff in Hl.
    simpl. rewrite (toUpperCase_one c Ha), (upper_not_letter c Hl). reflexivity.
Qed.

(** C5, as the code has it: on a non-empty string of hyphens and punctuation
    only (no letter, no digit, no white space) [toDotCase] returns the empty
    string and [toKebabCase] throws its [Error]; [toCamelCase] returns the
    empty string when the string has hyphens and underscores only, returns
    the string itself when it has neither a hyphen nor an underscore, and,
    when the string is ASCII, returns it with its hyphens and underscores
    taken out. *)
Theorem punctuation_only (s : jsstring) :
  onlyPunctuation s = true ->
  toDotCase (JString s) = Return [] /\
  toKebabCase (JString s) =
    Throw (Error "Input cannot be converted to a valid kebab-case string") /\
  (forallb isSeparator s = true -> toCamelCase (JString s) = Return []) /\
  (test isSeparator s = false -> toCamelCase (JString s) = Return s) /\
  (forallb isASCII s = true ->
   toCamelCase (JString s) = Return (filter (fun c => negb (isSeparator c)) s)).
Proof.
  intro H. destruct (punctuation_facts s H) as (Hne & Ht & Ha & Hl).
  assert (Hn : nonEmpty s = true) by (apply nonEmpty_true, Hne).
  assert (Hplain : test isSeparator s = false -> camelOfString s = s).
  { intro Hsep. rewrite camelOfString_plain; rewrite Ht; [|exact Hsep].
    rewrite Hl. reflexivity. }
  split; [|split; [|split; [|split]]].
  - rewrite toDotCase_string. f_equal. unfold dotOfString.
    rewrite Ht, nonEmpty_length, Hn. cbn [negb].
    rewrite replaceCamelBoundaries_spec, insertBoundaryDots_none.
    + apply dotNormalize_no_alnum, Ha.
    + apply existsb_none_forallb. apply existsb_none_forallb in Ha. revert Ha.
      apply forallb_impl. intros c Hc. chars.
  - rewrite toKebabCase_string, Ht, nonEmpty_length, Hn, Ha. reflexivity.
  - intro Hsep. rewrite toCamelCase_string. f_equal.
    rewrite camelOfString_separated; rewrite ?Ht; try exact Hne.
    + unfold camelOfSegments. rewrite Ht, segments_all_separators by exact Hsep.
      reflexivity.
    + destruct s as [|c r]; [discriminate|].
      simpl in Hsep. apply andb_true_iff in Hsep as [Hc _].
      simpl. rewrite Hc. reflexivity.
  - intro Hsep. rewrite toCamelCase_string, (Hplain Hsep). reflexivity.
  - intro Hascii. rewrite toCamelCase_string. f_equal.
    destruct (test isSeparator s) eqn:Hsep.
    + rewrite camelOfString_separated; rewrite ?Ht; try assumption.
      unfold camelOfSegments. rewrite Ht, <- concat_segments.
      assert (Hseg : Forall (fun p => forallb (fun c => isASCII c && negb (isLetter c)) p = true)
                       (segments isSeparator s)).
      { apply segments_chars. apply existsb_none_forallb in Hl.
        clear - Hascii Hl. induction s as [|c r IH]; [reflexivity|].
        simpl in *. apply andb_true_iff in Hascii as [-> Hr].
        apply andb_true_iff in Hl as [-> Hr']. rewrite orb_true_r. auto. }
      destruct (segments isSeparator s) as [|seg0 others]; [reflexivity|].
      inversion Hseg as [|? ? H0 Hothers]; subst.
      destruct (segment_unchanged seg0 H0) as [-> _].
      simpl. f_equal. f_equal. rewrite <- (map_id others) at 2.
      apply map_ext_Forall. revert Hothers. apply Forall_impl.
      intros p Hp. destruct (segment_unchanged p Hp) as [-> ->]. reflexivity.
    + rewrite (Hplain eq_refl). symmetry. apply filter_keeps_all, Hsep.
Qed.

(** ** The two [toCamelCase] *)

Lemma toCamelCaseFewShot_string (s : jsstring) :
  toCamelCaseFewShot (JString s) =
    match segments notAlnum (trim s) with
    | [] => []
    | p0 :: others => toLowerCase p0 ++ concat (map capitalizeFewShot others)
    end.
Proof.
  unfold toCamelCaseFewShot. rewrite filter_splitRuns.
  destruct (segments notAlnum (trim s)); [reflexivity|].
  rewrite join_nothing. reflexivity.
Qed.

Lemma capitalize_agree (seg : jsstring) :
  forallb isAlnum seg = true ->
  upperFirst (toLowerCase seg) = capitalizeFewShot seg.
Proof.
  intro H. rewrite toLowerCase_alnum by exact H. unfold capitalizeFewShot.
  destruct seg as [|c r]; [reflexivity|].
  simpl in H. apply andb_true_iff in H as [Hc Hr].
  change (charAt0 (c :: r)) with [c]. change (slice1 (c :: r)) with r.
  rewrite (toLowerCase_alnum r Hr).
  change (upperFirst (map asciiLower (c :: r)))
    with (toUpperCase [asciiLower c] ++ map asciiLower r).
  rewrite !toUpperCase_one, upper_of_lower.
  - reflexivity.
  - apply alnum_ascii, Hc.
  - apply alnum_ascii. rewrite lower_keeps_alnum. exact Hc.
Qed.

Lemma word_chars_split (s : jsstring) :
  forallb isWordChar s = true ->
  segments notAlnum s = segments isSeparator s /\
  forallb (fun c => isSeparator c || isAlnum c) s = true.
Proof.
  intro H. split.
  - apply segments_ext. revert H. apply forallb_impl. intros c Hc.
    unfold notAlnum, isWordChar in *. destruct (isSeparator c) eqn:E.
    + rewrite (separator_not_alnum c E). reflexivity.
    + rewrite orb_false_r in Hc. rewrite Hc. reflexivity.
  - revert H. apply forallb_impl. intros c Hc. unfold isWordChar in Hc.
    rewrite orb_comm. exact Hc.
Qed.

(** C10, as the code has it: on a string of ASCII letters, digits and
    separators (white space, underscores, hyphens) only, whose trimmed form
    has a separator, or which has no uppercase letter, or which has no
    lowercase letter, the two [toCamelCase] return the same string. *)
Theorem camel_implementations_agree (s : jsstring) :
  forallb isWordChar s = true ->
  test isSeparator (trim s) = true \/ test isUpper s = false \/ test isLower s = false ->
  toCamelCase (JString s) = Return (toCamelCaseFewShot (JString s)).
Proof.
  intros Hw Hcase. rewrite toCamelCase_string, toCamelCaseFewShot_string. f_equal.
  destruct (word_chars_split (trim s) (forallb_trim _ s Hw)) as [-> Hchars].
  destruct (test isSeparator (trim s)) eqn:Hsep.
  - rewrite camelOfString_separated; [|intro E; rewrite E in Hsep; discriminate|exact Hsep].
    unfold camelOfSegments.
    pose proof (segments_chars isAlnum isSeparator (trim s) Hchars) as Hseg.
    destruct (segments isSeparator (trim s)) as [|seg0 others]; [reflexivity|].
    inversion Hseg as [|? ? _ Hothers]; subst.
    simpl concat. do 2 f_equal.
    apply map_ext_Forall. revert Hothers. apply Forall_impl, capitalize_agree.
  - assert (Hal : forallb isAlnum (trim s) = true).
    { apply existsb_none_forallb in Hsep. clear - Hsep Hchars.
      induction (trim s) as [|c r IH]; [reflexivity|].
      simpl in *. apply andb_true_iff in Hsep as [Hc Hr].
      apply andb_true_iff in Hchars as [Hc' Hr'].
      apply negb_true_iff in Hc. rewrite Hc in Hc'. simpl in Hc'.
      rewrite Hc'. auto. }
    rewrite camelOfString_plain, segments_plain by exact Hsep.
    destruct (nonEmpty (trim s)) eqn:En;
      [|destruct (trim s); [reflexivity | discriminate En]].
    cbv iota. change (concat (map capitalizeFewShot [])) with (@nil codeunit).
    rewrite app_nil_r, (toLowerCase_alnum _ Hal).
    assert (Hup : toUpperCase (trim s) = map asciiUpper (trim s)).
    { apply toUpperCase_ascii. revert Hal. apply forallb_impl, alnum_ascii. }
    rewrite Hup.
    destruct Hcase as [F|[Hu|Hlo]]; [discriminate|..].
    + assert (E : map asciiLower (trim s) = trim s).
      { apply map_fixed with (P := fun c => negb (isUpper c)).
        - intros c Hc. chars.
        - apply forallb_trim, existsb_none_forallb, Hu. }
      rewrite E. destruct (_ && _); reflexivity.
    + assert (E : map asciiUpper (trim s) = trim s).
      { apply map_fixed with (P := fun c => negb (isLower c)).
        - intros c Hc. chars.
        - apply forallb_trim, existsb_none_forallb, Hlo. }
      rewrite E. rewrite (proj2 (eqString_eq _ _) eq_refl), andb_true_r.
      destruct (test isLetter (trim s)) eqn:Hl; [reflexivity|].
      symmetry. apply map_fixed with (P := fun c => negb (isLetter c)).
      * intros c Hc. apply lower_not_letter, negb_true_iff, Hc.
      * apply existsb_none_forallb, Hl.
Qed.

(** * Further properties of the three functions *)

(** ** White space around the input *)

Lemma dropWhile_nil (p : codeunit -> bool) (s : jsstring) :
  dropWhile p s = [] <-> forallb p s = true.
Proof.
  split; [|apply dropWhile_all].
  induction s as [|c r IH]; simpl; [reflexivity|].
  destruct (p c); [exact IH | discriminate].
Qed.

Lemma dropWhileEnd_nil (p : codeunit -> bool) (s : jsstring) :
  dropWhileEnd p s = [] <-> forallb p s = true.
Proof.
  unfold dropWhileEnd. rewrite <- (forallb_rev p s), <- dropWhile_nil.
  split; intro H.
  - apply (f_equal (@rev codeunit)) in H. rewrite rev_involutive in H. exact H.
  - rewrite H. reflexivity.
Qed.

Lemma forallb_dropWhile_back (p : codeunit -> bool) (s : jsstring) :
  forallb p (dropWhile p s) = true -> forallb p s = true.
Proof.
  induction s as [|c r IH]; simpl; [reflexivity|].
  destruct (p c) eqn:E; simpl.
  - exact IH.
  - rewrite E. discriminate.
Qed.

Lemma trim_nil (s : jsstring) : trim s = [] <-> forallb isSpace s = true.
Proof.
  unfold trim. rewrite dropWhileEnd_nil. split.
  - apply forallb_dropWhile_back.
  - apply forallb_dropWhile.
Qed.

Lemma dropWhile_app_all (p : codeunit -> bool) (a s : jsstring) :
  forallb p a = true -> dropWhile p (a ++ s) = dropWhile p s.
Proof.
  induction a as [|c r IH]; simpl; [reflexivity|].
  intro H. apply andb_true_iff in H as [-> Hr]. auto.
Qed.

Lemma dropWhile_app_keep (p : codeunit -> bool) (s b : jsstring) :
  dropWhile p s <> [] -> dropWhile p (s ++ b) = dropWhile p s ++ b.
Proof.
  induction s as [|c r IH]; simpl; [intro F; contradiction|].
  destruct (p c); [exact IH | reflexivity].
Qed.

Lemma dropWhileEnd_app_all (p : codeunit -> bool) (s b : jsstring) :
  forallb p b = true -> dropWhileEnd p (s ++ b) = dropWhileEnd p s.
Proof.
  intro H. unfold dropWhileEnd. rewrite rev_app_distr, dropWhile_app_all; [reflexivity|].
  rewrite forallb_rev. exact H.
Qed.

Lemma trim_padding (a s b : jsstring) :
  forallb isSpace a = true -> forallb isSpace b = true ->
  trim (a ++ s ++ b) = trim s.
Proof.
  intros Ha Hb. unfold trim. rewrite (dropWhile_app_all _ a _ Ha).
  destruct (dropWhile isSpace s) as [|c r] eqn:E.
  - apply dropWhile_nil in E.
    rewrite (dropWhile_all isSpace (s ++ b)); [reflexivity|].
    rewrite forallb_app, E, Hb. reflexivity.
  - rewrite dropWhile_app_keep by (rewrite E; discriminate).
    rewrite E. apply dropWhileEnd_app_all, Hb.
Qed.

Lemma filter_dropWhile (Q p : codeunit -> bool) (s : jsstring) :
  (forall c, p c = true -> Q c = false) ->
  filter Q (dropWhile p s) = filter Q s.
Proof.
  intro H. induction s as [|c r IH]; simpl; [reflexivity|].
  destruct (p c) eqn:E; [|reflexivity].
  rewrite (H c E). exact IH.
Qed.

Lemma filter_trim (Q : codeunit -> bool) (s : jsstring) :
  (forall c, isSpace c = true -> Q c = false) ->
  filter Q (trim s) = filter Q s.
Proof.
  intro H. unfold trim, dropWhileEnd.
  rewrite filter_rev, (filter_dropWhile Q isSpace _ H), <- filter_rev, rev_involutive.
  apply filter_dropWhile, H.
Qed.

Lemma existsb_filter (Q : codeunit -> bool) (s : jsstring) :
  existsb Q s = nonEmpty (filter Q s).
Proof.
  induction s as [|c r IH]; simpl; [reflexivity|].
  destruct (Q c); [reflexivity | exact IH].
Qed.

Lemma test_trim (Q : codeunit -> bool) (s : jsstring) :
  (forall c, isSpace c = true -> Q c = false) ->
  test Q (trim s) = test Q s.
Proof.
  intro H. unfold test. rewrite !existsb_filter, (filter_trim Q s H). reflexivity.
Qed.

Lemma space_not_alnum (c : codeunit) : isSpace c = true -> isAlnum c = false.
Proof. intro H. apply separator_not_alnum, space_separator, H. Qed.

(** ** Runs that are not there *)

Lemma replaceRunsFrom_none (cls : codeunit -> bool) (by_ : jsstring) (b : bool)
    (s : jsstring) :
  existsb cls s = false -> replaceRunsFrom cls by_ b s = s.
Proof.
  revert b. induction s as [|c r IH]; intros b H; simpl; [reflexivity|].
  simpl in H. apply orb_false_iff in H as [-> Hr]. rewrite (IH false Hr). reflexivity.
Qed.

Lemma filter_replaceRunsFrom (Q cls : codeunit -> bool) (by_ : jsstring) (b : bool)
    (s : jsstring) :
  filter Q by_ = [] ->
  (forall c, cls c = true -> Q c = false) ->
  filter Q (replaceRunsFrom cls by_ b s) = filter Q s.
Proof.
  intros Hby Hcls. revert b. induction s as [|c r IH]; intro b; simpl; [reflexivity|].
  destruct (cls c) eqn:E.
  - rewrite (Hcls c E). destruct b; [apply IH|].
    rewrite filter_app, Hby. apply IH.
  - simpl. rewrite IH. reflexivity.
Qed.

Lemma collapse_none (d : codeunit) (b : bool) (s : jsstring) :
  noDouble d s = true -> (b = true -> startsWith d s = false) ->
  replaceRunsFrom (fun c => c =? d) [d] b s = s.
Proof.
  revert b. induction s as [|c r IH]; intros b Hn Hs; [reflexivity|].
  rewrite noDouble_cons in Hn. apply andb_true_iff in Hn as [Hc Hr].
  simpl. destruct (c =? d) eqn:E.
  - simpl in Hc. apply negb_true_iff in Hc.
    destruct b; [specialize (Hs eq_refl); simpl in Hs; congruence|].
    apply N.eqb_eq in E. subst c. simpl. f_equal. apply IH; auto.
  - f_equal. apply IH; [exact Hr | discriminate].
Qed.

Lemma filter_mapped (Q : codeunit -> bool) (f : codeunit -> codeunit) (s : jsstring) :
  (forall c, Q (f c) = Q c) -> filter Q (map f s) = map f (filter Q s).
Proof.
  intro H. induction s as [|c r IH]; simpl; [reflexivity|].
  rewrite H. destruct (Q c); simpl; rewrite IH; reflexivity.
Qed.

(** ** [toKebabCase], from its input *)

Lemma kebabNormalize_filter (t : jsstring) :
  filter isAlnum (kebabNormalize t) = map asciiLower (filter isAlnum t).
Proof.
  destruct (kebabNormalize_eq t) as [_ ->]. unfold replaceRuns.
  rewrite filter_mapped by apply lower_keeps_alnum. f_equal.
  rewrite !filter_replaceRunsFrom; try reflexivity; intros c Hc; chars.
Qed.

Lemma kebab_char_facts (s : jsstring) :
  forallb isKebabChar s = true ->
  test isSpace s = false /\ existsb notAlnumHyphen s = false /\ map asciiLower s = s.
Proof.
  intro H. split; [|split].
  - apply existsb_none_forallb. revert H. apply forallb_impl. intros c Hc. chars.
  - apply existsb_none_forallb. revert H. apply forallb_impl. intros c Hc. chars.
  - revert H. apply map_fixed. intros c Hc. chars.
Qed.

Lemma kebabNormalize_fixed (s : jsstring) :
  forallb isKebabChar s = true -> noDouble HYPHEN s = true ->
  kebabNormalize s = s.
Proof.
  intros Hc Hn. destruct (kebab_char_facts s Hc) as (Hs & Hd & Hl).
  destruct (kebabNormalize_eq s) as [_ ->]. unfold replaceRuns.
  rewrite (replaceRunsFrom_none isSpace _ _ _ Hs).
  rewrite (replaceRunsFrom_none notAlnumHyphen _ _ _ Hd).
  unfold isHyphen. rewrite (collapse_none HYPHEN false s Hn) by discriminate.
  exact Hl.
Qed.

Lemma toKebabCase_fixed (s : jsstring) :
  forallb isKebabChar s = true -> noDouble HYPHEN s = true ->
  test isAlnum s = true ->
  toKebabCase (JString s) = Return (JString s).
Proof.
  intros Hc Hn Ha. destruct (kebab_char_facts s Hc) as (Hs & _ & _).
  rewrite toKebabCase_string, (trim_none s Hs), Ha, (kebabNormalize_fixed s Hc Hn).
  destruct s; [discriminate Ha | reflexivity].
Qed.

(** X1: what [toKebabCase] does is read off its input: it returns the empty
    string exactly on a string of white space only (the empty one included),
    and throws its [Error] exactly on a string that has a character other
    than white space but no ASCII letter and no digit. *)
Theorem toKebabCase_by_input (s : jsstring) :
  (toKebabCase (JString s) = Return (JString []) <-> forallb isSpace s = true) /\
  ((exists m, toKebabCase (JString s) = Throw (Error m)) <->
   (forallb isSpace s = false /\ test isAlnum s = false)).
Proof.
  rewrite toKebabCase_string, nonEmpty_length, (test_trim isAlnum s space_not_alnum).
  destruct (nonEmpty (trim s)) eqn:En; cbn [negb].
  - assert (Hb : forallb isSpace s = false).
    { apply not_true_is_false. intro F. apply trim_nil in F.
      rewrite F in En. discriminate. }
    rewrite Hb. destruct (test isAlnum s) eqn:Ha; split; split;
      try discriminate; try (intros [? F]; discriminate F);
      try (intros [_ F]; discriminate F).
    + intro E. injection E as E.
      pose proof (kebabNormalize_alnum (trim s)) as K.
      rewrite E, (test_trim isAlnum s space_not_alnum), Ha in K. discriminate K.
    + intros _. split; reflexivity.
    + intros _. eexists. reflexivity.
  - assert (Hb : forallb isSpace s = true).
    { apply trim_nil. destruct (trim s); [reflexivity | discriminate]. }
    rewrite Hb. split; split; try reflexivity.
    + intros [? F]. discriminate F.
    + intros [F _]. discriminate F.
Qed.

(** X2: [toKebabCase] neither drops, adds nor moves a letter or a digit: the
    ASCII letters and digits of the string it returns are those of its input,
    in the same order, in lower case. *)
Theorem toKebabCase_keeps_alnum (s out : jsstring) :
  toKebabCase (JString s) = Return (JString out) ->
  filter isAlnum out = map asciiLower (filter isAlnum s).
Proof.
  rewrite toKebabCase_string, nonEmpty_length.
  rewrite <- (filter_trim isAlnum s space_not_alnum).
  destruct (nonEmpty (trim s)) eqn:En; cbn [negb].
  - destruct (test isAlnum (trim s)); [|discriminate].
    intro H. injection H as <-. apply kebabNormalize_filter.
  - intro H. injection H as <-. destruct (trim s); [reflexivity | discriminate].
Qed.

(** X3: the strings [toKebabCase] returns unchanged are the empty string and
    the strings of lowercase ASCII letters, digits and hyphens that have a
    letter or a digit and no two hyphens in a row. *)
Theorem toKebabCase_fixed_points (s : jsstring) :
  toKebabCase (JString s) = Return (JString s) <->
  s = [] \/
  (forallb isKebabChar s = true /\ noDouble HYPHEN s = true /\ test isAlnum s = true).
Proof.
  split.
  - rewrite toKebabCase_string, nonEmpty_length.
    destruct (nonEmpty (trim s)); cbn [negb].
    + destruct (test isAlnum (trim s)) eqn:Ha; [|discriminate].
      intro H. injection H as H. right.
      destruct (kebabNormalize_shape (trim s)) as [Hc Hn].
      pose proof (kebabNormalize_alnum (trim s)) as K.
      rewrite H in Hc, Hn, K. rewrite Ha in K. auto.
    + intro H. injection H as <-. left. reflexivity.
  - intros [-> | (Hc & Hn & Ha)]; [reflexivity|].
    apply toKebabCase_fixed; assumption.
Qed.

(** X4: [toKebabCase] is idempotent: applied to a value it has returned
    ([null] or a string), it returns that value. *)
Theorem toKebabCase_idempotent (v w : jsvalue) :
  toKebabCase v = Return w -> toKebabCase w = Return w.
Proof.
  destruct v; try discriminate.
  - intro H. injection H as <-. reflexivity.
  - rewrite toKebabCase_string, nonEmpty_length.
    destruct (nonEmpty (trim s)); cbn [negb].
    + destruct (test isAlnum (trim s)) eqn:Ha; [|discriminate].
      intro H. injection H as <-.
      destruct (kebabNormalize_shape (trim s)) as [Hc Hn].
      apply toKebabCase_fixed; [exact Hc | exact Hn |].
      rewrite kebabNormalize_alnum. exact Ha.
    + intro H. injection H as <-. reflexivity.
Qed.

(** ** [split] on a character and [join] *)

Lemma splitCharFrom_cons (d : codeunit) (piece s : jsstring) :
  exists p l, splitCharFrom d piece s = p :: l.
Proof.
  revert piece. induction s as [|c r IH]; intro piece; simpl.
  - eauto.
  - destruct (c =? d); [eauto | apply IH].
Qed.

Lemma join_cons (d x : jsstring) (l : list jsstring) :
  l <> [] -> join d (x :: l) = x ++ d ++ join d l.
Proof. destruct l; [intro F; contradiction | reflexivity]. Qed.

(** Joining the pieces of a split with the character of the split gives the
    string back. *)
Lemma join_splitCharFrom (d : codeunit) (s piece : jsstring) :
  join [d] (splitCharFrom d piece s) = piece ++ s.
Proof.
  revert piece. induction s as [|c r IH]; intro piece; simpl.
  - rewrite app_nil_r. reflexivity.
  - destruct (c =? d) eqn:E.
    + apply N.eqb_eq in E. subst c.
      destruct (splitCharFrom_cons d [] r) as (p & l & Hpl).
      rewrite join_cons by (rewrite Hpl; discriminate).
      rewrite IH. reflexivity.
    + rewrite IH, <- app_assoc. reflexivity.
Qed.

Lemma concat_splitCharFrom (d : codeunit) (s piece : jsstring) :
  concat (splitCharFrom d piece s) = piece ++ filter (fun c => negb (c =? d)) s.
Proof.
  revert piece. induction s as [|c r IH]; intro piece; simpl.
  - reflexivity.
  - destruct (c =? d); simpl.
    + rewrite IH. reflexivity.
    + rewrite IH, <- app_assoc. reflexivity.
Qed.

Lemma concat_filterBoolean (a : list jsstring) : concat (filterBoolean a) = concat a.
Proof.
  induction a as [|p a IH]; simpl; [reflexivity|].
  destruct p; simpl; [exact IH | rewrite IH; reflexivity].
Qed.

Lemma filterBoolean_all (a : list jsstring) :
  Forall (fun p => nonEmpty p = true) a -> filterBoolean a = a.
Proof.
  induction 1 as [|p a Hp _ IH]; simpl; [reflexivity|].
  rewrite Hp, IH. reflexivity.
Qed.

Lemma splitCharFrom_nonEmpty (d : codeunit) (s piece : jsstring) :
  noDouble d s = true -> endsWith d s = false ->
  (piece = [] -> s <> [] /\ startsWith d s = false) ->
  Forall (fun p => nonEmpty p = true) (splitCharFrom d piece s).
Proof.
  revert piece. induction s as [|c r IH]; intros piece Hn He Hp.
  - simpl. constructor; [|constructor].
    destruct piece; [destruct (Hp eq_refl) as [F _]; contradiction | reflexivity].
  - rewrite noDouble_cons in Hn. apply andb_true_iff in Hn as [Hc Hr].
    assert (Her : r <> [] -> endsWith d r = false).
    { intro Hne. destruct r; [contradiction | exact He]. }
    simpl. destruct (c =? d) eqn:E.
    + simpl in Hc. apply negb_true_iff in Hc.
      assert (Hne : r <> []).
      { intro F. subst r. simpl in He. congruence. }
      constructor.
      * destruct piece; [|reflexivity].
        destruct (Hp eq_refl) as [_ F]. simpl in F. congruence.
      * apply IH; auto.
    + apply IH; [exact Hr | | intro F; apply app_eq_nil in F as [_ F]; discriminate].
      destruct r; [reflexivity | apply Her; discriminate].
Qed.

Lemma filter_join (Q : codeunit -> bool) (d : codeunit) (a : list jsstring) :
  Q d = false -> filter Q (join [d] a) = concat (map (filter Q) a).
Proof.
  intro Hd. induction a as [|x r IH]; [reflexivity|].
  destruct r as [|y r'].
  - simpl. rewrite app_nil_r. reflexivity.
  - change (join [d] (x :: y :: r')) with (x ++ d :: join [d] (y :: r')).
    remember (join [d] (y :: r')) as rest.
    rewrite filter_app. simpl filter. rewrite Hd, IH. reflexivity.
Qed.

Lemma filter_narrow (Q P : codeunit -> bool) (s : jsstring) :
  (forall c, Q c = true -> P c = true) ->
  filter Q (filter P s) = filter Q s.
Proof.
  intro H. induction s as [|c r IH]; simpl; [reflexivity|].
  destruct (P c) eqn:E; simpl.
  - rewrite IH. reflexivity.
  - destruct (Q c) eqn:F; [rewrite (H c F) in E; discriminate | exact IH].
Qed.

(** ** [toDotCase], from its input *)

Lemma endsWith_rev (d : codeunit) (s : jsstring) :
  endsWith d s = startsWith d (rev s).
Proof.
  induction s as [|c x _] using rev_ind; [reflexivity|].
  rewrite endsWith_app by discriminate. rewrite rev_app_distr. reflexivity.
Qed.

Lemma dropWhile_start (d : codeunit) (s : jsstring) :
  startsWith d s = false -> dropWhile (fun c => c =? d) s = s.
Proof. destruct s as [|c r]; simpl; [reflexivity|]. intros ->. reflexivity. Qed.

Lemma stripDots_none (s : jsstring) :
  startsWith DOT s = false -> endsWith DOT s = false -> stripDots s = s.
Proof.
  intros Hs He. unfold stripDots, dropWhileEnd, isDot.
  rewrite (dropWhile_start DOT s Hs).
  rewrite dropWhile_start by (rewrite <- endsWith_rev; exact He).
  apply rev_involutive.
Qed.

Lemma filter_stripDots (Q : codeunit -> bool) (s : jsstring) :
  Q DOT = false -> filter Q (stripDots s) = filter Q s.
Proof.
  intro H.
  assert (Hd : forall c, isDot c = true -> Q c = false).
  { intros c Hc. apply N.eqb_eq in Hc. subst c. exact H. }
  unfold stripDots, dropWhileEnd.
  rewrite filter_rev, (filter_dropWhile Q isDot _ Hd), <- filter_rev, rev_involutive.
  apply filter_dropWhile, Hd.
Qed.

Lemma insertBoundaryDots_no_upper (s : jsstring) :
  existsb isUpper s = false -> insertBoundaryDots s = s.
Proof.
  induction s as [|a t IH]; [reflexivity|].
  intro H. simpl in H. apply orb_false_iff in H as [_ Ht]. specialize (IH Ht).
  destruct t as [|b r]; [reflexivity|].
  simpl in Ht. apply orb_false_iff in Ht as [Hb _].
  rewrite insertBoundaryDots_unfold. unfold isBoundary.
  rewrite Hb, andb_false_r, IH. reflexivity.
Qed.

Lemma filter_insertBoundaryDots (s : jsstring) :
  filter isAlnum (insertBoundaryDots s) = filter isAlnum s.
Proof.
  induction s as [|a t IH]; [reflexivity|].
  destruct t as [|b r]; [reflexivity|].
  rewrite insertBoundaryDots_unfold.
  remember (insertBoundaryDots (b :: r)) as rest. remember (b :: r) as t.
  change (isAlnum DOT) with false in *.
  destruct (isBoundary a b); simpl; change (isAlnum DOT) with false;
    rewrite IH; reflexivity.
Qed.

Lemma dot_char_facts (s : jsstring) :
  forallb isDotChar s = true ->
  test isSpace s = false /\ existsb isUpper s = false /\
  existsb notAlnumDot s = false /\
  forallb (fun c => (c =? DOT) || isLowerOrDigit c) s = true.
Proof.
  intro H. repeat split.
  - apply existsb_none_forallb. revert H. apply forallb_impl. intros c Hc. chars.
  - apply existsb_none_forallb. revert H. apply forallb_impl. intros c Hc. chars.
  - apply existsb_none_forallb. revert H. apply forallb_impl. intros c Hc. chars.
  - revert H. apply forallb_impl. intros c Hc. chars.
Qed.

Lemma toLowerCase_lower (p : jsstring) :
  forallb isLowerOrDigit p = true -> toLowerCase p = p.
Proof.
  intro H. rewrite toLowerCase_ascii.
  - revert H. apply map_fixed. intros c Hc. chars.
  - revert H. apply forallb_impl. intros c Hc. chars.
Qed.

Lemma dotNormalize_fixed (s : jsstring) :
  s <> [] -> forallb isDotChar s = true ->
  startsWith DOT s = false -> endsWith DOT s = false -> noDouble DOT s = true ->
  dotNormalize s = s.
Proof.
  intros Hne Hc Hs He Hn. destruct (dot_char_facts s Hc) as (_ & _ & Hr & Hq).
  unfold dotNormalize, replaceRuns.
  rewrite (replaceRunsFrom_none notAlnumDot _ _ _ Hr).
  assert (E : replaceRunsFrom isDot [DOT] false s = s)
    by (apply (collapse_none DOT false s Hn); discriminate).
  rewrite E, (stripDots_none s Hs He), nonEmpty_length.
  apply nonEmpty_true in Hne. rewrite Hne. cbn [negb].
  unfold splitChar.
  rewrite filterBoolean_all.
  - rewrite <- (join_splitCharFrom DOT s []) at 2. f_equal.
    rewrite <- map_id. apply map_ext_Forall.
    pose proof (splitCharFrom_pieces DOT isLowerOrDigit s [] eq_refl Hq) as Hp.
    revert Hp. apply Forall_impl. intros p Hp. apply toLowerCase_lower, Hp.
  - apply splitCharFrom_nonEmpty; [exact Hn | exact He |].
    intros _. split; [apply nonEmpty_true, Hne | exact Hs].
Qed.

Lemma dotOfString_fixed (s : jsstring) :
  s <> [] -> forallb isDotChar s = true ->
  startsWith DOT s = false -> endsWith DOT s = false -> noDouble DOT s = true ->
  dotOfString s = s.
Proof.
  intros Hne Hc Hs He Hn. destruct (dot_char_facts s Hc) as (Hw & Hu & _ & _).
  unfold dotOfString. rewrite (trim_none s Hw), nonEmpty_length.
  rewrite (proj2 (nonEmpty_true s) Hne). cbn [negb].
  rewrite replaceCamelBoundaries_spec, (insertBoundaryDots_no_upper s Hu).
  apply dotNormalize_fixed; assumption.
Qed.

Lemma dotNormalize_filter (x : jsstring) :
  filter isAlnum (dotNormalize x) = map asciiLower (filter isAlnum x).
Proof.
  unfold dotNormalize, replaceRuns.
  set (t := stripDots
              (replaceRunsFrom isDot [DOT] false
                 (replaceRunsFrom notAlnumDot [DOT] false x))).
  assert (Ht : forallb (fun c => isDot c || isAlnum c) t = true).
  { subst t. unfold stripDots. apply forallb_dropWhileEnd, forallb_dropWhile.
    apply forallb_replaceRunsFrom; [reflexivity|].
    apply forallb_impl with (P := fun c => isDot c || isAlnum c).
    - intros c Hc. rewrite Hc. apply orb_true_r.
    - apply forallb_replaceRunsFrom; [reflexivity|].
      apply forallb_always. intro c. unfold notAlnumDot.
      destruct (isAlnum c), (isDot c); reflexivity. }
  assert (Hx : filter isAlnum t = filter isAlnum x).
  { subst t. rewrite filter_stripDots by reflexivity.
    rewrite !filter_replaceRunsFrom; try reflexivity; intros c Hc; chars. }
  rewrite <- Hx. destruct (length t =? 0)%nat eqn:El.
  - destruct t; [reflexivity | discriminate El].
  - rewrite filter_join by reflexivity.
    pose proof (splitCharFrom_pieces DOT isAlnum t [] eq_refl Ht) as Hp.
    apply Forall_filterBoolean in Hp.
    rewrite map_map.
    rewrite (map_ext_Forall _ (fun p => map asciiLower (filter isAlnum p))).
    + rewrite <- (map_map (filter isAlnum) (map asciiLower)).
      rewrite <- concat_map, concat_filter_map, concat_filterBoolean.
      unfold splitChar. rewrite concat_splitCharFrom. simpl app.
      rewrite filter_narrow; [reflexivity|]. intros c Hc. chars.
    + revert Hp. apply Forall_impl. intros p [_ Hp].
      rewrite toLowerCase_alnum by exact Hp.
      apply filter_mapped, lower_keeps_alnum.
Qed.

Lemma dotOfString_filter (s : jsstring) :
  filter isAlnum (dotOfString s) = map asciiLower (filter isAlnum s).
Proof.
  rewrite <- (filter_trim isAlnum s space_not_alnum).
  unfold dotOfString. destruct (length (trim s) =? 0)%nat eqn:El.
  - destruct (trim s); [reflexivity | discriminate El].
  - rewrite dotNormalize_filter, replaceCamelBoundaries_spec, filter_insertBoundaryDots.
    reflexivity.
Qed.

(** X5: [toDotCase] neither drops, adds nor moves a letter or a digit: the
    ASCII letters and digits of the string it returns are those of its input,
    in the same order, in lower case. *)
Theorem toDotCase_keeps_alnum (s out : jsstring) :
  toDotCase (JString s) = Return out ->
  filter isAlnum out = map asciiLower (filter isAlnum s).
Proof.
  rewrite toDotCase_string. intro H. injection H as <-. apply dotOfString_filter.
Qed.

(** X6: [toDotCase] returns the empty string exactly on the strings that
    have no ASCII letter and no digit. *)
Theorem toDotCase_empty_iff (s : jsstring) :
  toDotCase (JString s) = Return [] <-> test isAlnum s = false.
Proof.
  rewrite toDotCase_string. unfold test. rewrite existsb_filter.
  pose proof (dotOfString_filter s) as Hf. split.
  - intro H. injection H as H. rewrite H in Hf. simpl in Hf.
    destruct (filter isAlnum s); [reflexivity | discriminate Hf].
  - intro H. f_equal.
    destruct (filter isAlnum s); [|discriminate H]. simpl in Hf.
    destruct (dotOfString s) as [|c r] eqn:E; [reflexivity|].
    destruct (dotOfString_shape s) as (Hc & Hs & _); [rewrite E; discriminate|].
    rewrite E in Hc, Hs. simpl in Hc, Hs, Hf.
    apply andb_true_iff in Hc as [Hc _].
    assert (Ha : isAlnum c = true) by chars.
    rewrite Ha in Hf. discriminate Hf.
Qed.

(** X7: the strings [toDotCase] returns unchanged are the empty string and
    the strings of lowercase ASCII letters, digits and dots that neither
    start nor end with a dot and have no two dots in a row. *)
Theorem toDotCase_fixed_points (s : jsstring) :
  toDotCase (JString s) = Return s <->
  s = [] \/
  (forallb isDotChar s = true /\ startsWith DOT s = false /\
   endsWith DOT s = false /\ noDouble DOT s = true).
Proof.
  rewrite toDotCase_string. split.
  - intro H. injection H as H. destruct s as [|c r]; [left; reflexivity|]. right.
    rewrite <- H. apply dotOfString_shape. rewrite H. discriminate.
  - intros [-> | (Hc & Hs & He & Hn)]; [reflexivity|].
    f_equal. destruct s as [|c r]; [reflexivity|].
    apply dotOfString_fixed; [discriminate | assumption..].
Qed.

Lemma toDotCase_output_shape_aux (v : jsvalue) (out : jsstring) :
  toDotCase v = Return out -> out <> [] ->
  forallb isDotChar out = true /\ startsWith DOT out = false /\
  endsWith DOT out = false /\ noDouble DOT out = true.
Proof.
  intros H Hne. destruct v; try discriminate H.
  - rewrite toDotCase_number in H. injection H as <-. apply dotOfString_shape, Hne.
  - rewrite toDotCase_string in H. injection H as <-. apply dotOfString_shape, Hne.
Qed.

(** X8: [toDotCase] is idempotent: applied to a string it has returned, for
    a string or a number, it returns that string. *)
Theorem toDotCase_idempotent (v : jsvalue) (out : jsstring) :
  toDotCase v = Return out -> toDotCase (JString out) = Return out.
Proof.
  intro H. rewrite toDotCase_string. f_equal.
  destruct out as [|c r] eqn:E; [reflexivity|]. rewrite <- E in *.
  assert (Hne : out <> []) by (rewrite E; discriminate).
  destruct (toDotCase_output_shape_aux v out H Hne) as (Hc & Hs & He & Hn).
  apply dotOfString_fixed; assumption.
Qed.

(** ** Blank and padded inputs *)

Lemma camelOfString_trim (s1 s2 : jsstring) :
  trim s1 = trim s2 -> camelOfString s1 = camelOfString s2.
Proof. intro H. unfold camelOfString. rewrite H. reflexivity. Qed.

Lemma dotOfString_trim (s1 s2 : jsstring) :
  trim s1 = trim s2 -> dotOfString s1 = dotOfString s2.
Proof. intro H. unfold dotOfString. rewrite H. reflexivity. Qed.

Lemma toKebabCase_trim (s1 s2 : jsstring) :
  trim s1 = trim s2 -> toKebabCase (JString s1) = toKebabCase (JString s2).
Proof. intro H. rewrite !toKebabCase_string, H. reflexivity. Qed.

Lemma toCamelCaseFewShot_trim (s1 s2 : jsstring) :
  trim s1 = trim s2 ->
  toCamelCaseFewShot (JString s1) = toCamelCaseFewShot (JString s2).
Proof. intro H. rewrite !toCamelCaseFewShot_string, H. reflexivity. Qed.

(** X9: on a string of white space only, the empty string included, the
    four functions return the empty string. *)
Theorem blank_input (s : jsstring) :
  forallb isSpace s = true ->
  toCamelCase (JString s) = Return [] /\
  toDotCase (JString s) = Return [] /\
  toKebabCase (JString s) = Return (JString []) /\
  toCamelCaseFewShot (JString s) = [].
Proof.
  intro H. apply trim_nil in H.
  assert (E : trim s = trim []) by (rewrite H; reflexivity).
  rewrite toCamelCase_string, toDotCase_string.
  rewrite (camelOfString_trim s [] E), (dotOfString_trim s [] E).
  rewrite (toKebabCase_trim s [] E), (toCamelCaseFewShot_trim s [] E).
  repeat split; reflexivity.
Qed.

(** X10: white space before and after the input does not count: with any
    white space put around a string, each of the four functions gives what
    it gives on the string. *)
Theorem padding_ignored (a s b : jsstring) :
  forallb isSpace a = true -> forallb isSpace b = true ->
  toCamelCase (JString (a ++ s ++ b)) = toCamelCase (JString s) /\
  toDotCase (JString (a ++ s ++ b)) = toDotCase (JString s) /\
  toKebabCase (JString (a ++ s ++ b)) = toKebabCase (JString s) /\
  toCamelCaseFewShot (JString (a ++ s ++ b)) = toCamelCaseFewShot (JString s).
Proof.
  intros Ha Hb. pose proof (trim_padding a s b Ha Hb) as E.
  rewrite !toCamelCase_string, !toDotCase_string.
  rewrite (camelOfString_trim _ _ E), (dotOfString_trim _ _ E).
  rewrite (toKebabCase_trim _ _ E), (toCamelCaseFewShot_trim _ _ E).
  repeat split; reflexivity.
Qed.

(** ** The characters [toCamelCase] keeps *)

Lemma lower_idem (c : codeunit) : asciiLower (asciiLower c) = asciiLower c.
Proof. chars. Qed.

Lemma lower_of_upper (c : codeunit) : asciiLower (asciiUpper c) = asciiLower c.
Proof. chars. Qed.

Lemma lower_ascii (c : codeunit) : isASCII c = true -> isASCII (asciiLower c) = true.
Proof. chars. Qed.

Lemma lower_keeps_separator (c : codeunit) : isSeparator (asciiLower c) = isSeparator c.
Proof.
  destruct (isSeparator c) eqn:E; [| apply not_true_is_false; intro F]; chars.
Qed.

Lemma upper_keeps_alnum (c : codeunit) : isAlnum (asciiUpper c) = isAlnum c.
Proof.
  destruct (isAlnum c) eqn:E; [| apply not_true_is_false; intro F]; chars.
Qed.

Lemma space_is_separator (c : codeunit) :
  isSpace c = true -> negb (isSeparator c) = false.
Proof. intro H. rewrite (space_separator c H). reflexivity. Qed.

Lemma map_lower_idem (s : jsstring) :
  map asciiLower (map asciiLower s) = map asciiLower s.
Proof. rewrite map_map. apply map_ext, lower_idem. Qed.

Lemma existsb_filter_out (p : codeunit -> bool) (s : jsstring) :
  existsb p (filter (fun c => negb (p c)) s) = false.
Proof.
  induction s as [|c r IH]; simpl; [reflexivity|].
  destruct (p c) eqn:E; simpl; [exact IH | rewrite E; exact IH].
Qed.

Lemma forallb_concat (Q : codeunit -> bool) (a : list jsstring) :
  Forall (fun p => forallb Q p = true) a -> forallb Q (concat a) = true.
Proof.
  induction 1 as [|p a Hp _ IH]; simpl; [reflexivity|].
  rewrite forallb_app, Hp, IH. reflexivity.
Qed.

(** Up to the case of the letters, a segment goes unchanged into the
    result. *)
Lemma segment_lowered (seg : jsstring) :
  forallb isASCII seg = true ->
  map asciiLower (toLowerCase seg) = map asciiLower seg /\
  map asciiLower (upperFirst (toLowerCase seg)) = map asciiLower seg.
Proof.
  intro H. rewrite (toLowerCase_ascii seg H). split; [apply map_lower_idem|].
  destruct seg as [|c r]; [reflexivity|].
  simpl in H. apply andb_true_iff in H as [Hc _].
  change (upperFirst (map asciiLower (c :: r)))
    with (toUpperCase [asciiLower c] ++ map asciiLower r).
  rewrite (toUpperCase_one _ (lower_ascii c Hc)).
  simpl. rewrite lower_of_upper, lower_idem, map_lower_idem. reflexivity.
Qed.

Lemma camelOfString_lowered (s : jsstring) :
  forallb isASCII s = true ->
  map asciiLower (camelOfString s) =
    map asciiLower (filter (fun c => negb (isSeparator c)) s).
Proof.
  intro H. pose proof (forallb_trim _ s H) as Ht.
  rewrite <- (filter_trim _ s space_is_separator).
  destruct (test isSeparator (trim s)) eqn:Hsep.
  - rewrite camelOfString_separated;
      [|intro E; rewrite E in Hsep; discriminate | exact Hsep].
    unfold camelOfSegments. rewrite <- concat_segments.
    assert (Hseg : Forall (fun p => forallb isASCII p = true)
                     (segments isSeparator (trim s))).
    { apply segments_chars. revert Ht. apply forallb_impl.
      intros c Hc. rewrite Hc. apply orb_true_r. }
    destruct (segments isSeparator (trim s)) as [|seg0 others]; [reflexivity|].
    inversion Hseg as [|? ? H0 Hothers]; subst.
    rewrite !concat_map. f_equal. simpl map.
    rewrite (proj1 (segment_lowered seg0 H0)). f_equal.
    rewrite map_map. apply map_ext_Forall. revert Hothers. apply Forall_impl.
    intros p Hp. apply (segment_lowered p Hp).
  - rewrite camelOfString_plain by exact Hsep.
    rewrite (filter_keeps_all isSeparator (trim s) Hsep).
    destruct (_ && _); [|reflexivity].
    rewrite (toLowerCase_ascii _ Ht). apply map_lower_idem.
Qed.

(** X11: on an ASCII string [toCamelCase] removes separators and nothing
    else, and changes nothing but the case of letters: up to the case of the
    letters, the string it returns is its input without its white space,
    underscores and hyphens.  No separator is left in it. *)
Theorem toCamelCase_ascii_content (s out : jsstring) :
  forallb isASCII s = true ->
  toCamelCase (JString s) = Return out ->
  map asciiLower out = map asciiLower (filter (fun c => negb (isSeparator c)) s) /\
  test isSeparator out = false.
Proof.
  intros H Hout. rewrite toCamelCase_string in Hout. injection Hout as <-.
  pose proof (camelOfString_lowered s H) as E. split; [exact E|].
  unfold test. rewrite <- (existsb_map isSeparator asciiLower) by apply lower_keeps_separator.
  rewrite E, existsb_map by apply lower_keeps_separator.
  apply existsb_filter_out.
Qed.

(** ** The characters the second [toCamelCase] keeps *)

Lemma capitalizeFewShot_alnum (p : jsstring) :
  forallb isAlnum p = true ->
  forallb isAlnum (capitalizeFewShot p) = true /\
  map asciiLower (capitalizeFewShot p) = map asciiLower p.
Proof.
  intro H. unfold capitalizeFewShot. destruct p as [|c r]; [split; reflexivity|].
  simpl in H. apply andb_true_iff in H as [Hc Hr].
  change (charAt0 (c :: r)) with [c]. change (slice1 (c :: r)) with r.
  rewrite (toUpperCase_one c (alnum_ascii c Hc)), (toLowerCase_alnum r Hr).
  simpl. rewrite upper_keeps_alnum, Hc, lower_of_upper, map_lower_idem.
  rewrite forallb_mapped. split; [|reflexivity].
  revert Hr. apply forallb_impl. intros x Hx. rewrite lower_keeps_alnum. exact Hx.
Qed.

Lemma fewShot_segments (s : jsstring) :
  Forall (fun p => forallb isAlnum p = true) (segments notAlnum (trim s)) /\
  concat (segments notAlnum (trim s)) = filter isAlnum s.
Proof.
  split.
  - apply segments_chars, forallb_always. intro c. unfold notAlnum.
    destruct (isAlnum c); reflexivity.
  - rewrite concat_segments, <- (filter_trim isAlnum s space_not_alnum).
    apply filter_ext. intro c. unfold notAlnum. apply negb_involutive.
Qed.

Lemma toCamelCaseFewShot_lowered (s : jsstring) :
  map asciiLower (toCamelCaseFewShot (JString s)) =
    map asciiLower (filter isAlnum s).
Proof.
  rewrite toCamelCaseFewShot_string.
  destruct (fewShot_segments s) as [Hseg <-].
  destruct (segments notAlnum (trim s)) as [|p0 others]; [reflexivity|].
  inversion Hseg as [|? ? H0 Hothers]; subst.
  rewrite (toLowerCase_alnum p0 H0).
  simpl concat. rewrite !map_app, map_lower_idem. f_equal.
  rewrite !concat_map, map_map. f_equal.
  apply map_ext_Forall. revert Hothers. apply Forall_impl.
  intros p Hp. apply (capitalizeFewShot_alnum p Hp).
Qed.

Lemma toCamelCaseFewShot_alnum (s : jsstring) :
  forallb isAlnum (toCamelCaseFewShot (JString s)) = true.
Proof.
  rewrite toCamelCaseFewShot_string.
  destruct (fewShot_segments s) as [Hseg _].
  destruct (segments notAlnum (trim s)) as [|p0 others]; [reflexivity|].
  inversion Hseg as [|? ? H0 Hothers]; subst.
  rewrite (toLowerCase_alnum p0 H0), forallb_app, forallb_mapped.
  apply andb_true_iff. split.
  - revert H0. apply forallb_impl. intros c Hc. rewrite lower_keeps_alnum. exact Hc.
  - apply forallb_concat, Forall_map. revert Hothers. apply Forall_impl.
    intros p Hp. apply (capitalizeFewShot_alnum p Hp).
Qed.

(** X12: the second [toCamelCase] removes every character that is not an
    ASCII letter or digit and nothing else, and changes nothing but the case
    of letters: the string it returns has ASCII letters and digits only and,
    up to the case of the letters, it is the string of the letters and digits
    of the input. *)
Theorem toCamelCaseFewShot_content (s : jsstring) :
  forallb isAlnum (toCamelCaseFewShot (JString s)) = true /\
  map asciiLower (toCamelCaseFewShot (JString s)) =
    map asciiLower (filter isAlnum s).
Proof.
  split.
  - apply toCamelCaseFewShot_alnum.
  - apply toCamelCaseFewShot_lowered.
Qed.

(** X17: applied to a string it has returned, the second [toCamelCase]
    returns it in lower case: the capitals that marked the words do not
    survive a second application. *)
Theorem toCamelCaseFewShot_twice (s : jsstring) :
  toCamelCaseFewShot (JString (toCamelCaseFewShot (JString s))) =
    map asciiLower (toCamelCaseFewShot (JString s)).
Proof.
  pose proof (toCamelCaseFewShot_alnum s) as H.
  set (p := toCamelCaseFewShot (JString s)) in *.
  rewrite toCamelCaseFewShot_string.
  assert (Hsp : test isSpace p = false).
  { apply existsb_none_forallb. revert H. apply forallb_impl. intros c Hc. chars. }
  assert (Hna : existsb notAlnum p = false).
  { apply existsb_none_forallb. revert H. apply forallb_impl.
    intros c Hc. unfold notAlnum. rewrite Hc. reflexivity. }
  rewrite (trim_none p Hsp), (segments_plain notAlnum p Hna).
  destruct p as [|c r]; [reflexivity|].
  simpl nonEmpty. cbv iota.
  rewrite (toLowerCase_alnum _ H). simpl concat. apply app_nil_r.
Qed.

(** ** [toDotCase] as the runs of letters and digits *)

Lemma segments_cons_word (sep : codeunit -> bool) (c : codeunit) (y : jsstring) :
  sep c = false ->
  segments sep (c :: y) =
    if match y with [] => true | c' :: _ => sep c' end
    then [c] :: segments sep y
    else match segments sep y with
         | w :: ws => (c :: w) :: ws
         | [] => [[c]]
         end.
Proof.
  intro H. destruct y as [|c' r]; [simpl; rewrite H; reflexivity|].
  rewrite segments_unfold, H. reflexivity.
Qed.

Lemma segments_word_first (sep : codeunit -> bool) (c : codeunit) (y : jsstring) :
  sep c = false -> segments sep (c :: y) <> [].
Proof.
  intro H. rewrite (segments_cons_word sep c y H).
  destruct (match y with [] => true | c' :: _ => sep c' end); [discriminate|].
  destruct (segments sep y); discriminate.
Qed.

(** Cut at a separator, a string has the segments of its two parts. *)
Lemma segments_cut (sep : codeunit -> bool) (u : jsstring) (c : codeunit) (v : jsstring) :
  sep c = true ->
  segments sep (u ++ c :: v) = segments sep u ++ segments sep v.
Proof.
  intro Hc. induction u as [|a u IH].
  - simpl. rewrite Hc. reflexivity.
  - change ((a :: u) ++ c :: v) with (a :: u ++ c :: v).
    destruct (sep a) eqn:Ha.
    + rewrite !(segments_sep_cons sep a) by exact Ha. exact IH.
    + rewrite !(segments_cons_word sep a) by exact Ha. rewrite IH.
      destruct u as [|a' u'].
      * simpl. rewrite Hc. reflexivity.
      * change ((a' :: u') ++ c :: v) with (a' :: u' ++ c :: v).
        destruct (sep a') eqn:Ha'; [reflexivity|].
        pose proof (segments_word_first sep a' u' Ha') as Hne.
        destruct (segments sep (a' :: u')); [contradiction | reflexivity].
Qed.

Lemma segments_trailing (sep : codeunit -> bool) (y b : jsstring) :
  forallb sep b = true -> segments sep (y ++ b) = segments sep y.
Proof.
  intro H. destruct b as [|c b']; [rewrite app_nil_r; reflexivity|].
  simpl in H. apply andb_true_iff in H as [Hc Hb].
  rewrite (segments_cut sep y c b' Hc), (segments_all_separators sep b' Hb).
  apply app_nil_r.
Qed.

Lemma dropWhile_prefix (p : codeunit -> bool) (z : jsstring) :
  exists a, z = a ++ dropWhile p z /\ forallb p a = true.
Proof.
  induction z as [|c r (a & Ha & Hp)]; [exists []; split; reflexivity|].
  simpl. destruct (p c) eqn:E.
  - exists (c :: a). simpl. rewrite E, Hp. split; [f_equal; exact Ha | reflexivity].
  - exists []. split; reflexivity.
Qed.

Lemma segments_dropWhile (sep : codeunit -> bool) (y : jsstring) :
  segments sep (dropWhile sep y) = segments sep y.
Proof.
  induction y as [|c r IH]; [reflexivity|].
  simpl dropWhile. destruct (sep c) eqn:E; [|reflexivity].
  rewrite (segments_sep_cons sep c r E). exact IH.
Qed.

Lemma segments_dropWhileEnd (sep : codeunit -> bool) (y : jsstring) :
  segments sep (dropWhileEnd sep y) = segments sep y.
Proof.
  unfold dropWhileEnd. destruct (dropWhile_prefix sep (rev y)) as (a & Ha & Hp).
  apply (f_equal (@rev codeunit)) in Ha. rewrite rev_involutive, rev_app_distr in Ha.
  rewrite Ha at 2. symmetry. apply segments_trailing.
  rewrite forallb_rev. exact Hp.
Qed.

(** Replacing runs by a separator keeps the segments, when what is replaced
    was a separator and what is kept stays what it was. *)
Lemma segments_replaceRunsFrom (cls sepIn sepOut : codeunit -> bool) (d : codeunit)
    (b : bool) (y : jsstring) :
  (forall c, cls c = true -> sepIn c = true) ->
  (forall c, cls c = false -> sepOut c = sepIn c) ->
  sepOut d = true ->
  segments sepOut (replaceRunsFrom cls [d] b y) = segments sepIn y.
Proof.
  intros Hcls Hkeep Hd. revert b. induction y as [|c r IH]; intro b; [reflexivity|].
  simpl replaceRunsFrom. destruct (cls c) eqn:E.
  - rewrite (segments_sep_cons sepIn c r (Hcls c E)).
    destruct b; [apply IH|].
    change ([d] ++ ?z) with (d :: z). rewrite (segments_sep_cons sepOut d _ Hd).
    apply IH.
  - destruct (sepIn c) eqn:Ec.
    + rewrite !segments_sep_cons; [apply IH | exact Ec | rewrite (Hkeep c E); exact Ec].
    + rewrite !segments_cons_word; [| exact Ec | rewrite (Hkeep c E); exact Ec].
      rewrite IH.
      replace (match replaceRunsFrom cls [d] false r with
               | [] => true | c' :: _ => sepOut c' end)
        with (match r with [] => true | c' :: _ => sepIn c' end); [reflexivity|].
      destruct r as [|c' r']; [reflexivity|].
      simpl. destruct (cls c') eqn:E'.
      * simpl. rewrite Hd. apply Hcls, E'.
      * symmetry. apply Hkeep, E'.
Qed.

Lemma filter_splitCharFrom (d : codeunit) (s piece : jsstring) :
  existsb (fun c => c =? d) piece = false ->
  filterBoolean (splitCharFrom d piece s) = segments (fun c => c =? d) (piece ++ s).
Proof.
  revert piece. induction s as [|c r IH]; intros piece Hp.
  - rewrite app_nil_r, (segments_plain (fun c : codeunit => c =? d) piece Hp). simpl.
    destruct (nonEmpty piece); reflexivity.
  - simpl. destruct (c =? d) eqn:Hc.
    + rewrite (segments_app_sep (fun c : codeunit => c =? d) piece c r Hp Hc).
      simpl. rewrite (IH [] eq_refl). simpl.
      destruct (nonEmpty piece); reflexivity.
    + rewrite (IH (piece ++ [c])).
      * rewrite <- app_assoc. reflexivity.
      * rewrite existsb_app. simpl. rewrite Hc, orb_false_r. exact Hp.
Qed.

Lemma dotNormalize_segments (x : jsstring) :
  dotNormalize x = join [DOT] (map toLowerCase (segments notAlnum x)).
Proof.
  unfold dotNormalize, replaceRuns.
  set (t := stripDots
              (replaceRunsFrom isDot [DOT] false
                 (replaceRunsFrom notAlnumDot [DOT] false x))).
  assert (Hseg : segments isDot t = segments notAlnum x).
  { subst t. unfold stripDots.
    rewrite segments_dropWhileEnd, segments_dropWhile.
    rewrite (segments_replaceRunsFrom isDot isDot isDot DOT); auto.
    apply segments_replaceRunsFrom; try reflexivity; intros c Hc.
    - chars.
    - unfold notAlnum, isDot. unfold notAlnumDot in Hc.
      apply negb_false_iff in Hc. destruct (isAlnum c) eqn:Ea.
      + apply not_true_is_false. intro F. chars.
      + exact Hc. }
  rewrite <- Hseg. unfold splitChar.
  rewrite (filter_splitCharFrom DOT t [] eq_refl). simpl app.
  destruct t; reflexivity.
Qed.

(** X13: the string [toDotCase] returns is made of the runs of ASCII letters
    and digits of the trimmed input, once a dot is put at each of its
    camelCase boundaries: these runs, in order, each in lower case, joined by
    single dots.  Every other character only separates. *)
Theorem toDotCase_segments (s : jsstring) :
  toDotCase (JString s) =
    Return (join [DOT]
              (map toLowerCase (segments notAlnum (insertBoundaryDots (trim s))))).
Proof.
  rewrite toDotCase_string. f_equal. unfold dotOfString.
  rewrite replaceCamelBoundaries_spec, dotNormalize_segments.
  destruct (trim s); reflexivity.
Qed.

(** ** The four functions side by side *)

Lemma alnum_not_separator (c : codeunit) :
  isAlnum c = true -> negb (isSeparator c) = true.
Proof. intro H. chars. Qed.

(** X14: the functions agree on the letters and digits: the ASCII letters and
    digits of what [toDotCase] returns are, in order, those of what
    [toKebabCase] returns when it returns a string, those of what the second
    [toCamelCase] returns, once in lower case, and, on an ASCII string, those
    of what [toCamelCase] returns, once in lower case. *)
Theorem same_letters_and_digits (s dotted : jsstring) :
  toDotCase (JString s) = Return dotted ->
  filter isAlnum dotted = map asciiLower (toCamelCaseFewShot (JString s)) /\
  (forall kebab, toKebabCase (JString s) = Return (JString kebab) ->
     filter isAlnum kebab = filter isAlnum dotted) /\
  (forall camel, forallb isASCII s = true ->
     toCamelCase (JString s) = Return camel ->
     map asciiLower (filter isAlnum camel) = filter isAlnum dotted).
Proof.
  rewrite toDotCase_string. intro H. injection H as <-.
  rewrite dotOfString_filter. split; [|split].
  - symmetry. apply toCamelCaseFewShot_lowered.
  - intros kebab. rewrite toKebabCase_string, nonEmpty_length.
    rewrite <- (filter_trim isAlnum s space_not_alnum).
    destruct (nonEmpty (trim s)) eqn:En; cbn [negb].
    + destruct (test isAlnum (trim s)); [|discriminate].
      intro H. injection H as <-. apply kebabNormalize_filter.
    + intro H. injection H as <-. destruct (trim s); [reflexivity | discriminate].
  - intros camel Hascii. rewrite toCamelCase_string. intro H. injection H as <-.
    rewrite <- filter_mapped by apply lower_keeps_alnum.
    rewrite (camelOfString_lowered s Hascii).
    rewrite filter_mapped by apply lower_keeps_alnum.
    rewrite filter_narrow by apply alnum_not_separator. reflexivity.
Qed.

(** ** Integers *)







(** ** [toCamelCase] applied again *)

Lemma filter_out_nil (p : codeunit -> bool) (s : jsstring) :
  filter (fun c => negb (p c)) s = [] <-> forallb p s = true.
Proof.
  induction s as [|c r IH]; simpl; [tauto|].
  destruct (p c); simpl; [exact IH | split; discriminate].
Qed.

Lemma lower_keeps_ascii (c : codeunit) : isASCII (asciiLower c) = isASCII c.
Proof.
  destruct (isASCII c) eqn:E; [| apply not_true_is_false; intro F]; chars.
Qed.

Lemma forallb_lowered (P : codeunit -> bool) (x y : jsstring) :
  (forall c, P (asciiLower c) = P c) ->
  map asciiLower x = map asciiLower y -> forallb P x = forallb P y.
Proof.
  intros HP E.
  transitivity (forallb P (map asciiLower x)).
  - rewrite forallb_mapped. clear E. induction x as [|c r IH]; simpl; [reflexivity|].
    rewrite HP, IH. reflexivity.
  - rewrite E, forallb_mapped. clear E. induction y as [|c r IH]; simpl; [reflexivity|].
    rewrite HP, IH. reflexivity.
Qed.

Lemma camelOfString_ascii (s : jsstring) :
  forallb isASCII s = true ->
  forallb isASCII (camelOfString s) = true /\ test isSeparator (camelOfString s) = false.
Proof.
  intro H. pose proof (camelOfString_lowered s H) as E. split.
  - rewrite (forallb_lowered isASCII _ _ lower_keeps_ascii E).
    clear E. induction s as [|c r IH]; simpl; [reflexivity|].
    simpl in H. apply andb_true_iff in H as [Hc Hr].
    destruct (negb (isSeparator c)); simpl; rewrite ?Hc; auto.
  - unfold test.
    rewrite <- (existsb_map isSeparator asciiLower) by apply lower_keeps_separator.
    rewrite E, existsb_map by apply lower_keeps_separator.
    apply existsb_filter_out.
Qed.

(** A string in lower case that has a letter is not its own upper case. *)
Lemma lowered_not_upper (y : jsstring) :
  test isLetter y = true ->
  eqString (map asciiLower y) (map asciiUpper (map asciiLower y)) = false.
Proof.
  induction y as [|c r IH]; simpl; [discriminate|].
  destruct (isLetter c) eqn:E; simpl.
  - intros _. apply andb_false_iff. left. apply N.eqb_neq. chars.
  - intro H. rewrite (IH H). apply andb_false_r.
Qed.

Lemma camelOfString_settled (y : jsstring) :
  forallb isASCII y = true -> test isSeparator y = false ->
  camelOfString (camelOfString y) = camelOfString y.
Proof.
  intros Ha Hsep.
  pose proof (trim_none y (no_separator_no_space y Hsep)) as Ht.
  rewrite (camelOfString_plain y) by (rewrite Ht; exact Hsep). rewrite Ht.
  destruct (test isLetter y && eqString y (toUpperCase y)) eqn:E.
  - apply andb_true_iff in E as [Hl _].
    rewrite (toLowerCase_ascii y Ha).
    assert (Ha' : forallb isASCII (map asciiLower y) = true).
    { rewrite forallb_mapped. revert Ha. apply forallb_impl.
      intros c Hc. rewrite lower_keeps_ascii. exact Hc. }
    assert (Hsep' : test isSeparator (map asciiLower y) = false).
    { unfold test. rewrite existsb_map by apply lower_keeps_separator. exact Hsep. }
    pose proof (trim_none _ (no_separator_no_space _ Hsep')) as Ht'.
    rewrite camelOfString_plain by (rewrite Ht'; exact Hsep'). rewrite Ht'.
    rewrite (toUpperCase_ascii _ Ha'), (lowered_not_upper y Hl), andb_false_r.
    reflexivity.
  - rewrite camelOfString_plain by (rewrite Ht; exact Hsep). rewrite Ht, E.
    reflexivity.
Qed.

(** X16: on an ASCII string [toCamelCase] returns the empty string exactly
    when the string has white space, underscores and hyphens only. *)
Theorem toCamelCase_empty_iff (s : jsstring) :
  forallb isASCII s = true ->
  (toCamelCase (JString s) = Return [] <-> forallb isSeparator s = true).
Proof.
  intro H. rewrite toCamelCase_string.
  pose proof (camelOfString_lowered s H) as E.
  rewrite <- filter_out_nil. split.
  - intro K. injection K as K. rewrite K in E. simpl in E.
    destruct (filter (fun c => negb (isSeparator c)) s); [reflexivity | discriminate E].
  - intro K. rewrite K in E. f_equal.
    destruct (camelOfString s); [reflexivity | discriminate E].
Qed.

(** X18: on an ASCII string [toCamelCase] settles at its second application:
    applied to what it returned for what it returned, it returns its
    argument.  (The first result need not be kept: ['1_A'] gives ['1A'], which
    gives ['1a'].) *)
Theorem toCamelCase_settles (s once twice : jsstring) :
  forallb isASCII s = true ->
  toCamelCase (JString s) = Return once ->
  toCamelCase (JString once) = Return twice ->
  toCamelCase (JString twice) = Return twice.
Proof.
  intros H H1 H2. rewrite toCamelCase_string in *.
  injection H1 as <-. injection H2 as <-. f_equal.
  destruct (camelOfString_ascii s H) as [Ha Hsep].
  apply camelOfString_settled; assumption.
Qed.

End Casing.

(** * The functions on concrete inputs *)

(** [toKebabCase] leaves a hyphen at the start and at the end of its
    result: ['-a-'] is returned as it is. *)
Lemma toKebabCase_outer_hyphens :
  (forall UC : UnicodeCasing,
     toKebabCase (JString (js "-a-")) = Return (JString (js "-a-"))) /\
  startsWith HYPHEN (js "-a-") = true /\
  endsWith HYPHEN (js "-a-") = true /\
  ~ (forall (UC : UnicodeCasing) (input : jsvalue) (out : jsstring),
       toKebabCase input = Return (JString out) ->
       out <> [] ->
       forallb isKebabChar out = true /\
       startsWith HYPHEN out = false /\
       endsWith HYPHEN out = false /\
       noDouble HYPHEN out = true).
Proof.
  repeat split.
  intro claim.
  destruct (claim asciiCasing (JString (js "-a-")) (js "-a-") eq_refl
              ltac:(discriminate)) as (_ & F & _).
  discriminate F.
Qed.

Lemma toKebabCase_output_shape_witness :
  toKebabCase (UC := asciiCasing) (JString (js " Hello,  World ")) =
    Return (JString (js "hello-world")) /\
  js "hello-world" <> [] /\
  forallb isKebabChar (js "hello-world") = true /\
  noDouble HYPHEN (js "hello-world") = true.
Proof.
  split; [reflexivity|]. split; [discriminate|].
  apply (toKebabCase_output_shape (UC := asciiCasing)
           (JString (js " Hello,  World ")) (js "hello-world"));
    [reflexivity | discriminate].
Defined.

Lemma toCamelCase_with_separators_witness :
  (trim (js "first name") <> [] /\
   test isSeparator (trim (js "first name")) = true /\
   toCamelCase (UC := asciiCasing) (JString (js "first name")) = Return (js "firstName")) /\
  (trim (js "SCREEN_NAME") <> [] /\
   test isSeparator (trim (js "SCREEN_NAME")) = true /\
   toCamelCase (UC := asciiCasing) (JString (js "SCREEN_NAME")) = Return (js "screenName")).
Proof.
  split; (split; [vm_compute; discriminate|]); (split; [reflexivity|]).
  - rewrite (toCamelCase_with_separators (UC := asciiCasing) (js "first name"));
      [reflexivity | vm_compute; discriminate | reflexivity].
  - rewrite (toCamelCase_with_separators (UC := asciiCasing) (js "SCREEN_NAME"));
      [reflexivity | vm_compute; discriminate | reflexivity].
Defined.

Lemma toKebabCase_outcomes_witness :
  (trim (js "!!!") <> [] /\
   test isAlnum (kebabNormalize (UC := asciiCasing) (trim (js "!!!"))) = false /\
   exists m, toKebabCase (UC := asciiCasing) (JString (js "!!!")) = Throw (Error m)) /\
  (test isAlnum (kebabNormalize (UC := asciiCasing) (trim (js "a b"))) = true /\
   exists out, toKebabCase (UC := asciiCasing) (JString (js "a b")) = Return (JString out)).
Proof.
  split.
  - split; [vm_compute; discriminate|]. split; [reflexivity|].
    destruct (toKebabCase_outcomes (UC := asciiCasing) (JString (js "!!!")))
      as (_ & _ & H & _).
    apply (H (js "!!!") eq_refl); [vm_compute; discriminate | reflexivity].
  - split; [reflexivity|].
    destruct (toKebabCase_outcomes (UC := asciiCasing) (JString (js "a b")))
      as (_ & _ & _ & H).
    apply (H (js "a b") eq_refl). right. reflexivity.
Defined.

Lemma toCamelCase_without_separator_witness :
  (trim (js "SCREAM") <> [] /\
   test isSeparator (trim (js "SCREAM")) = false /\
   toCamelCase (UC := asciiCasing) (JString (js "SCREAM")) = Return (js "scream")) /\
  (trim (js "alreadyCamel") <> [] /\
   test isSeparator (trim (js "alreadyCamel")) = false /\
   toCamelCase (UC := asciiCasing) (JString (js "alreadyCamel")) = Return (js "alreadyCamel")).
Proof.
  split; (split; [vm_compute; discriminate|]); (split; [reflexivity|]).
  - destruct (toCamelCase_without_separator (UC := asciiCasing) (js "SCREAM"))
      as [H _]; [vm_compute; discriminate | reflexivity |].
    rewrite H; [reflexivity | split; reflexivity].
  - destruct (toCamelCase_without_separator (UC := asciiCasing) (js "alreadyCamel"))
      as [_ H]; [vm_compute; discriminate | reflexivity |].
    rewrite H; [reflexivity|]. intros [_ F]. vm_compute in F. discriminate F.
Defined.

(** [toCamelCase] returns a string of punctuation without separators as it
    is: ['!!!'] gives ['!!!'], not the empty string. *)
Lemma toCamelCase_keeps_punctuation :
  (forall UC : UnicodeCasing, toCamelCase (JString (js "!!!")) = Return (js "!!!")) /\
  onlyPunctuation (js "!!!") = true /\
  ~ (forall (UC : UnicodeCasing) (s : jsstring),
       onlyPunctuation s = true ->
       toCamelCase (JString s) = Return [] /\
       toDotCase (JString s) = Return [] /\
       exists m, toKebabCase (JString s) = Throw (Error m)).
Proof.
  repeat split.
  intro claim.
  destruct (claim asciiCasing (js "!!!") eq_refl) as (F & _).
  discriminate F.
Qed.

Lemma punctuation_only_witness :
  onlyPunctuation (js "-!_?") = true /\
  toDotCase (UC := asciiCasing) (JString (js "-!_?")) = Return [] /\
  toKebabCase (UC := asciiCasing) (JString (js "-!_?")) =
    Throw (Error "Input cannot be converted to a valid kebab-case string") /\
  toCamelCase (UC := asciiCasing) (JString (js "-!_?")) = Return (js "!?").
Proof.
  split; [reflexivity|].
  destruct (punctuation_only (UC := asciiCasing) (js "-!_?") eq_refl)
    as (Hd & Hk & _ & _ & Hc).
  split; [exact Hd|]. split; [exact Hk|].
  rewrite (Hc eq_refl). reflexivity.
Defined.

Lemma toDotCase_output_shape_witness :
  toDotCase (UC := asciiCasing) (JString (js "  multiple   sep ")) =
    Return (js "multiple.sep") /\
  js "multiple.sep" <> [] /\
  forallb isDotChar (js "multiple.sep") = true /\
  startsWith DOT (js "multiple.sep") = false /\
  endsWith DOT (js "multiple.sep") = false /\
  noDouble DOT (js "multiple.sep") = true.
Proof.
  split; [reflexivity|]. split; [discriminate|].
  apply (toDotCase_output_shape (UC := asciiCasing)
           (JString (js "  multiple   sep ")) (js "multiple.sep"));
    [reflexivity | discriminate].
Defined.

Lemma toCamelCase_stable_witness :
  toCamelCase (UC := asciiCasing) (JString (js "user_id")) = Return (js "userId") /\
  test isSeparator (js "userId") = false /\
  ~ (js "userId" = toUpperCase (UC := asciiCasing) (js "userId") /\
     test isLetter (js "userId") = true) /\
  toCamelCase (UC := asciiCasing) (JString (js "userId")) = Return (js "userId").
Proof.
  assert (H : ~ (js "userId" = toUpperCase (UC := asciiCasing) (js "userId") /\
                 test isLetter (js "userId") = true)).
  { intros [F _]. vm_compute in F. discriminate F. }
  split; [reflexivity|]. split; [reflexivity|]. split; [exact H|].
  apply (toCamelCase_stable (UC := asciiCasing) (JString (js "user_id")) (js "userId"));
    [reflexivity | reflexivity | exact H].
Defined.

Lemma number_and_type_contract_witness :
  toCamelCase (UC := asciiCasing) (JBoolean true) =
    Throw (TypeError "toCamelCase expects a string or number") /\
  toDotCase (UC := asciiCasing) JObject =
    Throw (TypeError "toDotCase expects a string or number") /\
  toCamelCase (UC := asciiCasing) JNull =
    Throw (TypeError "toCamelCase expects a string or number") /\
  exists out1 out2,
    toCamelCase (UC := asciiCasing) (JNumber (NumInt 123)) = Return out1 /\
    toDotCase (UC := asciiCasing) (JNumber (NumInt 123)) = Return out2.
Proof.
  destruct (number_and_type_contract (UC := asciiCasing))
    as (_ & _ & _ & _ & Herr & Hok).
  split; [apply (Herr (JBoolean true)); discriminate|].
  split; [apply (Herr JObject); discriminate|].
  split; [apply (Herr JNull); discriminate|].
  apply (Hok (JNumber (NumInt 123))). right. reflexivity.
Defined.

(** The two [toCamelCase] differ on a string of mixed case without
    separator: the first one returns ['alreadyCamel'] as it is, the second one
    in lower case. *)
Lemma camel_implementations_differ :
  (forall UC : UnicodeCasing,
     toCamelCase (JString (js "alreadyCamel")) = Return (js "alreadyCamel") /\
     toCamelCaseFewShot (JString (js "alreadyCamel")) = js "alreadycamel") /\
  ~ (forall (UC : UnicodeCasing) (s : jsstring),
       toCamelCase (JString s) = Return (toCamelCaseFewShot (JString s))).
Proof.
  split; [intro UC; split; reflexivity|].
  intro claim. specialize (claim asciiCasing (js "alreadyCamel")).
  vm_compute in claim. discriminate claim.
Qed.

Lemma camel_implementations_agree_witness :
  forallb isWordChar (js " SCREEN_NAME ") = true /\
  test isSeparator (trim (js " SCREEN_NAME ")) = true /\
  toCamelCase (UC := asciiCasing) (JString (js " SCREEN_NAME ")) = Return (js "screenName") /\
  toCamelCaseFewShot (UC := asciiCasing) (JString (js " SCREEN_NAME ")) = js "screenName".
Proof.
  split; [reflexivity|]. split; [reflexivity|]. split; [|reflexivity].
  rewrite (camel_implementations_agree (UC := asciiCasing) (js " SCREEN_NAME "));
    [reflexivity | reflexivity | left; reflexivity].
Defined.

(** ** The further properties on concrete inputs *)

Lemma toKebabCase_by_input_witness :
  (forallb isSpace (js "  ") = true /\
   toKebabCase (UC := asciiCasing) (JString (js "  ")) = Return (JString [])) /\
  (forallb isSpace (js "?!") = false /\ test isAlnum (js "?!") = false /\
   exists m, toKebabCase (UC := asciiCasing) (JString (js "?!")) = Throw (Error m)).
Proof.
  split.
  - split; [reflexivity|].
    destruct (toKebabCase_by_input (UC := asciiCasing) (js "  ")) as [[_ H] _].
    apply H. reflexivity.
  - split; [reflexivity|]. split; [reflexivity|].
    destruct (toKebabCase_by_input (UC := asciiCasing) (js "?!")) as [_ [_ H]].
    apply H. split; reflexivity.
Defined.

Lemma toKebabCase_keeps_alnum_witness :
  toKebabCase (UC := asciiCasing) (JString (js " Hello,  World ")) =
    Return (JString (js "hello-world")) /\
  filter isAlnum (js "hello-world") = js "helloworld" /\
  map asciiLower (filter isAlnum (js " Hello,  World ")) = js "helloworld".
Proof.
  split; [reflexivity|]. split; [reflexivity|].
  rewrite <- (toKebabCase_keeps_alnum (UC := asciiCasing)
                (js " Hello,  World ") (js "hello-world") eq_refl).
  reflexivity.
Defined.

Lemma toKebabCase_fixed_points_witness :
  forallb isKebabChar (js "-a-b1") = true /\
  noDouble HYPHEN (js "-a-b1") = true /\
  test isAlnum (js "-a-b1") = true /\
  toKebabCase (UC := asciiCasing) (JString (js "-a-b1")) = Return (JString (js "-a-b1")).
Proof.
  split; [reflexivity|]. split; [reflexivity|]. split; [reflexivity|].
  apply (proj2 (toKebabCase_fixed_points (UC := asciiCasing) (js "-a-b1"))).
  right. repeat split; reflexivity.
Defined.

Lemma toKebabCase_idempotent_witness :
  toKebabCase (UC := asciiCasing) (JString (js " Hello,  World ")) =
    Return (JString (js "hello-world")) /\
  toKebabCase (UC := asciiCasing) (JString (js "hello-world")) =
    Return (JString (js "hello-world")).
Proof.
  split; [reflexivity|].
  apply (toKebabCase_idempotent (UC := asciiCasing) (JString (js " Hello,  World "))).
  reflexivity.
Defined.

Lemma toDotCase_keeps_alnum_witness :
  toDotCase (UC := asciiCasing) (JString (js "firstName")) = Return (js "first.name") /\
  filter isAlnum (js "first.name") = map asciiLower (filter isAlnum (js "firstName")).
Proof.
  split; [reflexivity|].
  apply (toDotCase_keeps_alnum (UC := asciiCasing) (js "firstName") (js "first.name")).
  reflexivity.
Defined.

Lemma toDotCase_empty_iff_witness :
  test isAlnum (js "?! _") = false /\
  toDotCase (UC := asciiCasing) (JString (js "?! _")) = Return [].
Proof.
  split; [reflexivity|].
  apply (proj2 (toDotCase_empty_iff (UC := asciiCasing) (js "?! _"))). reflexivity.
Defined.

Lemma toDotCase_fixed_points_witness :
  forallb isDotChar (js "a.b1") = true /\
  startsWith DOT (js "a.b1") = false /\
  endsWith DOT (js "a.b1") = false /\
  noDouble DOT (js "a.b1") = true /\
  toDotCase (UC := asciiCasing) (JString (js "a.b1")) = Return (js "a.b1").
Proof.
  repeat (split; [reflexivity|]).
  apply (proj2 (toDotCase_fixed_points (UC := asciiCasing) (js "a.b1"))).
  right. repeat split; reflexivity.
Defined.

Lemma toDotCase_idempotent_witness :
  toDotCase (UC := asciiCasing) (JString (js "SCREEN_NAME")) = Return (js "screen.name") /\
  toDotCase (UC := asciiCasing) (JString (js "screen.name")) = Return (js "screen.name").
Proof.
  split; [reflexivity|].
  apply (toDotCase_idempotent (UC := asciiCasing) (JString (js "SCREEN_NAME"))).
  reflexivity.
Defined.

Lemma blank_input_witness :
  forallb isSpace (js "   ") = true /\
  toCamelCase (UC := asciiCasing) (JString (js "   ")) = Return [] /\
  toDotCase (UC := asciiCasing) (JString (js "   ")) = Return [] /\
  toKebabCase (UC := asciiCasing) (JString (js "   ")) = Return (JString []) /\
  toCamelCaseFewShot (UC := asciiCasing) (JString (js "   ")) = [].
Proof.
  split; [reflexivity|].
  apply (blank_input (UC := asciiCasing) (js "   ")). reflexivity.
Defined.

Lemma padding_ignored_witness :
  forallb isSpace (js " ") = true /\ forallb isSpace (js "  ") = true /\
  toCamelCase (UC := asciiCasing) (JString (js " " ++ js "user_id" ++ js "  ")) =
    Return (js "userId") /\
  toDotCase (UC := asciiCasing) (JString (js " " ++ js "user_id" ++ js "  ")) =
    Return (js "user.id").
Proof.
  split; [reflexivity|]. split; [reflexivity|].
  destruct (padding_ignored (UC := asciiCasing) (js " ") (js "user_id") (js "  ")
              eq_refl eq_refl) as (Hc & Hd & _ & _).
  rewrite Hc, Hd. split; reflexivity.
Defined.

Lemma toCamelCase_ascii_content_witness :
  forallb isASCII (js "first name") = true /\
  toCamelCase (UC := asciiCasing) (JString (js "first name")) = Return (js "firstName") /\
  map asciiLower (js "firstName") = js "firstname" /\
  test isSeparator (js "firstName") = false.
Proof.
  split; [reflexivity|]. split; [reflexivity|].
  destruct (toCamelCase_ascii_content (UC := asciiCasing) (js "first name")
              (js "firstName") eq_refl eq_refl) as [H1 H2].
  split; [rewrite H1; reflexivity | exact H2].
Defined.

Lemma same_letters_and_digits_witness :
  toDotCase (UC := asciiCasing) (JString (js "Hello World")) = Return (js "hello.world") /\
  toKebabCase (UC := asciiCasing) (JString (js "Hello World")) =
    Return (JString (js "hello-world")) /\
  filter isAlnum (js "hello-world") = filter isAlnum (js "hello.world").
Proof.
  split; [reflexivity|]. split; [reflexivity|].
  destruct (same_letters_and_digits (UC := asciiCasing) (js "Hello World")
              (js "hello.world") eq_refl) as (_ & H & _).
  apply H. reflexivity.
Defined.


Lemma toCamelCase_empty_iff_witness :
  forallb isASCII (js "_ -") = true /\
  forallb isSeparator (js "_ -") = true /\
  toCamelCase (UC := asciiCasing) (JString (js "_ -")) = Return [].
Proof.
  split; [reflexivity|]. split; [reflexivity|].
  apply (proj2 (toCamelCase_empty_iff (UC := asciiCasing) (js "_ -") eq_refl)).
  reflexivity.
Defined.

Lemma toCamelCase_settles_witness :
  forallb isASCII (js "1_A") = true /\
  toCamelCase (UC := asciiCasing) (JString (js "1_A")) = Return (js "1A") /\
  toCamelCase (UC := asciiCasing) (JString (js "1A")) = Return (js "1a") /\
  toCamelCase (UC := asciiCasing) (JString (js "1a")) = Return (js "1a").
Proof.
  split; [reflexivity|]. split; [reflexivity|]. split; [reflexivity|].
  apply (toCamelCase_settles (UC := asciiCasing) (js "1_A") (js "1A") (js "1a"));
    reflexivity.
Defined.
